(** * Inventory Manager: the data-access layer of [db.py]

    A shallow embedding of the SQLite-backed repository functions of
    [src/db.py] and the properties of its natural-language specification.

    Modelling choices, all taken from the source:

    - The store is the SQLite file: the two tables of [init_db] and SQLite's
      own [sqlite_sequence] table, which [delete_category] and
      [delete_product] rewrite by hand.  Tables are lists of rows in rowid
      order.
    - [Products.price] is a REAL column, an IEEE-754 binary64; it is carried
      as a [spec_float].  The arithmetic of SQLite's AVG, SUM and ROUND and
      of Python's [round] is not in the source; [get_category_report] takes
      it as a parameter ([Numerics]).
    - Python's [int] arguments are taken in the range of SQLite's INTEGER.
    - Every function of [db.py] runs in the monad [M]: a state monad over
      [World] with Python exceptions.  A [World] holds the database, the
      open write transaction (if any) with the snapshot a rollback restores,
      the connections that are open, and a schedule of store faults (I/O
      error, locked file) that [sqlite3] reports as [OperationalError].
    - A connection is opened with SQLite's defaults; the only setting
      [get_connection] changes is the journal mode.  In particular the
      [foreign_keys] pragma keeps its default, off. *)

From Stdlib Require Import ZArith List String Bool Lia Sorted Permutation.
From Stdlib Require Import Floats.SpecFloat.
Import ListNotations.
Open Scope string_scope.
Open Scope Z_scope.

(** ** Rows *)

(** A row of [Categories (category_id, name)]. *)
Record Category := mkCategory {
  c_category_id : Z;
  c_name : string
}.

(** A row of [Products (product_id, name, price, stock, category_id)]. *)
Record Product := mkProduct {
  p_product_id : Z;
  p_name : string;
  p_price : spec_float;
  p_stock : Z;
  p_category_id : Z
}.

(** A row of the SELECT that joins [Products] with [Categories]:
    [p.product_id, p.name, p.price, p.stock, p.category_id,
     c.name as category_name]. *)
Record ProductRow := mkProductRow {
  r_product_id : Z;
  r_name : string;
  r_price : spec_float;
  r_stock : Z;
  r_category_id : Z;
  r_category_name : string
}.

(** ** The database file *)

Record Database := mkDatabase {
  has_tables : bool;                      (* the schema of [init_db] exists *)
  Categories : list Category;
  Products : list Product;
  sqlite_sequence : list (string * Z)     (* rows (name, seq) *)
}.

Definition empty_file : Database := mkDatabase false [] [] [].

Definition set_Categories (d : Database) (cs : list Category) : Database :=
  mkDatabase (has_tables d) cs (Products d) (sqlite_sequence d).

Definition set_Products (d : Database) (ps : list Product) : Database :=
  mkDatabase (has_tables d) (Categories d) ps (sqlite_sequence d).

Definition set_sqlite_sequence (d : Database) (s : list (string * Z)) : Database :=
  mkDatabase (has_tables d) (Categories d) (Products d) s.

(** ** Exceptions and the monad *)

(** The two classes of [sqlite3] errors the code can meet, a constraint
    violation and everything else the store reports, and Python's error
    for a local variable read before it is bound. *)
Inductive exn := IntegrityError | OperationalError | UnboundLocalError.

Inductive outcome (A : Type) :=
| Return (a : A)
| Raise (e : exn).
Arguments Return {A} a.
Arguments Raise {A} e.

Record World := mkWorld {
  db : Database;
  txn : option (nat * Database);   (* owner and the snapshot taken at BEGIN *)
  open_conns : list nat;
  next_conn : nat;
  faults : list bool               (* one entry per call into the store *)
}.

Definition M (A : Type) := World -> outcome A * World.

Definition ret {A} (a : A) : M A := fun w => (Return a, w).

Definition raise {A} (e : exn) : M A := fun w => (Raise e, w).

Definition bind {A B} (m : M A) (k : A -> M B) : M B :=
  fun w => match m w with
           | (Return a, w') => k a w'
           | (Raise e, w') => (Raise e, w')
           end.

(** [try: m  except ...: h e] *)
Definition try_except {A} (m : M A) (h : exn -> M A) : M A :=
  fun w => match m w with
           | (Return a, w') => (Return a, w')
           | (Raise e, w') => h e w'
           end.

Declare Scope py_scope.
Delimit Scope py_scope with py.
Notation "x <- m ;; k" := (bind m (fun x => k))
  (at level 100, m at next level, right associativity) : py_scope.
Notation "m ;; k" := (bind m (fun _ => k))
  (at level 100, right associativity) : py_scope.
Open Scope py_scope.

Definition set_db (w : World) (d : Database) : World :=
  mkWorld d (txn w) (open_conns w) (next_conn w) (faults w).

Definition set_txn (w : World) (t : option (nat * Database)) : World :=
  mkWorld (db w) t (open_conns w) (next_conn w) (faults w).

Definition set_faults (w : World) (f : list bool) : World :=
  mkWorld (db w) (txn w) (open_conns w) (next_conn w) f.

(** ** The connection *)

Record Connection := mkConnection {
  conn_id : nat;
  foreign_keys : bool
}.

(** Every call into the store consults the fault schedule: [true] makes the
    call fail with [OperationalError]; an exhausted schedule never fails. *)
Definition store_call : M unit :=
  fun w => match faults w with
           | true :: fs => (Raise OperationalError, set_faults w fs)
           | _ => (Return tt, set_faults w (tl (faults w)))
           end.

(** [sqlite3.connect(DB_PATH, check_same_thread=False, isolation_level=None)] *)
Definition connect : M Connection :=
  store_call ;;
  fun w => (Return (mkConnection (next_conn w) false),
            mkWorld (db w) (txn w) (next_conn w :: open_conns w)
                    (S (next_conn w)) (faults w)).

(** [conn.execute('PRAGMA journal_mode=WAL')] *)
Definition execute_pragma_wal (conn : Connection) : M unit := store_call.

Definition get_connection : M Connection :=
  conn <- connect ;;
  try_except (execute_pragma_wal conn) (fun _ => ret tt) ;;
  ret conn.

(** [cursor.execute('BEGIN TRANSACTION')] *)
Definition begin_transaction (conn : Connection) : M unit :=
  store_call ;;
  fun w => match txn w with
           | None => (Return tt, set_txn w (Some (conn_id conn, db w)))
           | Some _ => (Raise OperationalError, w)
           end.

(** [conn.commit()]: with [isolation_level=None] it does nothing unless the
    connection has a transaction open. *)
Definition commit (conn : Connection) : M unit :=
  fun w => match txn w with
           | Some (owner, _) =>
               if Nat.eqb owner (conn_id conn)
               then (store_call ;; fun w' => (Return tt, set_txn w' None)) w
               else (Return tt, w)
           | None => (Return tt, w)
           end.

(** [conn.rollback()] *)
Definition rollback (conn : Connection) : M unit :=
  fun w => match txn w with
           | Some (owner, snapshot) =>
               if Nat.eqb owner (conn_id conn)
               then (Return tt, set_txn (set_db w snapshot) None)
               else (Return tt, w)
           | None => (Return tt, w)
           end.

(** [conn.close()]: an open transaction of the connection is rolled back. *)
Definition close (conn : Connection) : M unit :=
  rollback conn ;;
  fun w => (Return tt,
            mkWorld (db w) (txn w)
                    (filter (fun c => negb (Nat.eqb c (conn_id conn))) (open_conns w))
                    (next_conn w) (faults w)).

(** [cursor.execute(sql, params)] for a statement on the tables of the
    schema; [stmt] is the meaning of the SQL text on the database. *)
Definition execute {A} (conn : Connection)
    (stmt : Database -> outcome (A * Database)) : M A :=
  store_call ;;
  fun w => if has_tables (db w)
           then match stmt (db w) with
                | Return (a, d') => (Return a, set_db w d')
                | Raise e => (Raise e, w)
                end
           else (Raise OperationalError, w).

(** A SELECT: the database is left as it is. *)
Definition query {A} (f : Database -> A) : Database -> outcome (A * Database) :=
  fun d => Return (f d, d).

(** ** The SQL statements of [db.py] *)

Section OrderBy.
Context {A : Type} (le : A -> A -> bool).

Fixpoint insert_ordered (x : A) (l : list A) : list A :=
  match l with
  | [] => [x]
  | y :: r => if le x y then x :: y :: r else y :: insert_ordered x r
  end.

(** [ORDER BY]: a stable sort of the rows in rowid order. *)
Definition order_by (l : list A) : list A := fold_right insert_ordered [] l.

End OrderBy.

(** *** AUTOINCREMENT *)

Definition seq_of (table : string) (s : list (string * Z)) : option Z :=
  option_map snd (find (fun r => String.eqb (fst r) table) s).

Definition max_rowid (ids : list Z) : Z := fold_right Z.max 0 ids.

(** The rowid an AUTOINCREMENT table gives to a new row: one more than the
    largest of the rowids in the table and the counter in
    [sqlite_sequence]. *)
Definition counter (table : string) (s : list (string * Z)) : Z :=
  match seq_of table s with Some n => n | None => 0 end.

Definition next_rowid (table : string) (ids : list Z) (s : list (string * Z)) : Z :=
  Z.max (max_rowid ids) (counter table s) + 1.

(** The counter is written back: the row of the table is updated, or
    created when there is none. *)
Fixpoint set_seq (table : string) (n : Z) (s : list (string * Z)) : list (string * Z) :=
  match s with
  | [] => [(table, n)]
  | (t, v) :: r =>
      if String.eqb t table then (t, n) :: r else (t, v) :: set_seq table n r
  end.

(** [DELETE FROM sqlite_sequence WHERE name = "<table>"] *)
Definition delete_sequence (table : string) (d : Database) : outcome (unit * Database) :=
  Return (tt, set_sqlite_sequence d
                (filter (fun r => negb (String.eqb (fst r) table)) (sqlite_sequence d))).

(** [INSERT INTO sqlite_sequence (name, seq) VALUES ("<table>", 0)] *)
Definition insert_sequence (table : string) (n : Z) (d : Database) : outcome (unit * Database) :=
  Return (tt, set_sqlite_sequence d (sqlite_sequence d ++ [(table, n)])).

(** *** Categories *)

(** [SELECT category_id, name FROM Categories ORDER BY category_id] *)
Definition select_categories (d : Database) : list Category :=
  order_by (fun a b => c_category_id a <=? c_category_id b) (Categories d).

Definition category_exists (cid : Z) (d : Database) : bool :=
  existsb (fun c => c_category_id c =? cid) (Categories d).

Definition name_taken (name : string) (d : Database) : bool :=
  existsb (fun c => String.eqb (c_name c) name) (Categories d).

(** [INSERT INTO Categories (name) VALUES (?)]; [name] is UNIQUE. *)
Definition insert_category (name : string) (d : Database) : outcome (unit * Database) :=
  if name_taken name d then Raise IntegrityError
  else
    let id := next_rowid "Categories" (map c_category_id (Categories d))
                         (sqlite_sequence d) in
    Return (tt, mkDatabase (has_tables d)
                           (Categories d ++ [mkCategory id name])
                           (Products d)
                           (set_seq "Categories" id (sqlite_sequence d))).

(** [SELECT COUNT( * ) FROM Products WHERE category_id = ?] *)
Definition count_products_in_category (cid : Z) (d : Database) : Z :=
  Z.of_nat (List.length (filter (fun p => p_category_id p =? cid) (Products d))).

(** [DELETE FROM Categories WHERE category_id = ?]; a connection with
    [foreign_keys] on refuses to delete a referenced row. *)
Definition delete_category_row (conn : Connection) (cid : Z) (d : Database)
    : outcome (unit * Database) :=
  if foreign_keys conn && (0 <? count_products_in_category cid d)
  then Raise IntegrityError
  else Return (tt, set_Categories d
                     (filter (fun c => negb (c_category_id c =? cid)) (Categories d))).

(** [SELECT COUNT( * ) FROM Categories] *)
Definition count_categories (d : Database) : Z := Z.of_nat (List.length (Categories d)).

(** *** Products *)

Definition join_category (cs : list Category) (p : Product) : list ProductRow :=
  map (fun c => mkProductRow (p_product_id p) (p_name p) (p_price p) (p_stock p)
                             (p_category_id p) (c_name c))
      (filter (fun c => p_category_id p =? c_category_id c) cs).

(** [FROM Products p JOIN Categories c ON p.category_id = c.category_id
     WHERE ...] *)
Definition joined (where_ : Product -> bool) (d : Database) : list ProductRow :=
  flat_map (join_category (Categories d)) (filter where_ (Products d)).

(** [SELECT ... FROM Products p JOIN Categories c ON ... WHERE ...
     ORDER BY p.name] *)
Definition select_products (where_ : Product -> bool) (d : Database) : list ProductRow :=
  order_by (fun a b => String.leb (r_name a) (r_name b)) (joined where_ d).

(** [WHERE p.category_id IN (?, ..., ?)] *)
Definition category_in (ids : list Z) (p : Product) : bool :=
  existsb (fun i => p_category_id p =? i) ids.

(** [WHERE p.category_id = ?] *)
Definition category_is (cid : Z) (p : Product) : bool := p_category_id p =? cid.

Definition no_filter (p : Product) : bool := true.

(** [SELECT ... JOIN ... WHERE p.product_id = ?], then [fetchone()]. *)
Definition select_product_by_id (pid : Z) (d : Database) : option ProductRow :=
  hd_error (joined (fun p => p_product_id p =? pid) d).

(** A NaN is bound as NULL. *)
Definition binds_null (x : spec_float) : bool :=
  match x with S754_nan => true | _ => false end.

(** [INSERT INTO Products (name, price, stock, category_id)
     VALUES (?, ?, ?, ?)]; [price] is NOT NULL, and a connection with
    [foreign_keys] on refuses an unknown [category_id]. *)
Definition insert_product (conn : Connection) (name : string) (price : spec_float)
    (stock category_id : Z) (d : Database) : outcome (unit * Database) :=
  if binds_null price then Raise IntegrityError
  else if foreign_keys conn && negb (category_exists category_id d)
  then Raise IntegrityError
  else
    let id := next_rowid "Products" (map p_product_id (Products d))
                         (sqlite_sequence d) in
    Return (tt, mkDatabase (has_tables d)
                           (Categories d)
                           (Products d ++ [mkProduct id name price stock category_id])
                           (set_seq "Products" id (sqlite_sequence d))).

(** [UPDATE Products SET name = ?, price = ?, stock = ?, category_id = ?
     WHERE product_id = ?] *)
Definition update_product_row (conn : Connection) (product_id : Z) (name : string)
    (price : spec_float) (stock category_id : Z) (d : Database)
    : outcome (unit * Database) :=
  if existsb (fun p => p_product_id p =? product_id) (Products d)
     && (binds_null price
         || (foreign_keys conn && negb (category_exists category_id d)))
  then Raise IntegrityError
  else Return (tt, set_Products d
                     (map (fun p => if p_product_id p =? product_id
                                    then mkProduct (p_product_id p) name price stock
                                                   category_id
                                    else p)
                          (Products d))).

(** [DELETE FROM Products WHERE product_id = ?] *)
Definition delete_product_row (product_id : Z) (d : Database) : outcome (unit * Database) :=
  Return (tt, set_Products d
                (filter (fun p => negb (p_product_id p =? product_id)) (Products d))).

(** [SELECT COUNT( * ) FROM Products] *)
Definition count_products (d : Database) : Z := Z.of_nat (List.length (Products d)).

(** *** The report *)

(** The arithmetic on REAL values that the report leaves to SQLite and to
    Python. *)
Record Numerics := mkNumerics {
  sql_avg : list spec_float -> spec_float;        (* AVG over at least one row *)
  sql_round : spec_float -> Z -> spec_float;      (* ROUND(x, n) *)
  sql_times : spec_float -> Z -> spec_float;      (* price * stock *)
  sql_sum_real : list spec_float -> spec_float;   (* SUM over at least one row *)
  py_round : spec_float -> Z -> spec_float        (* round(float(x), n) *)
}.

Definition sum_stock (rows : list Product) : Z :=
  fold_right Z.add 0 (map p_stock rows).

(** [SELECT ROUND(AVG(price), 2), SUM(stock), SUM(price * stock)
     FROM Products WHERE ...]: one row, of NULLs when nothing is selected. *)
Definition select_report (N : Numerics) (where_ : Product -> bool) (d : Database)
    : option spec_float * option Z * option spec_float :=
  match filter where_ (Products d) with
  | [] => (None, None, None)
  | rows =>
      (Some (sql_round N (sql_avg N (map p_price rows)) 2),
       Some (sum_stock rows),
       Some (sql_sum_real N (map (fun p => sql_times N (p_price p) (p_stock p)) rows)))
  end.

(** ** The functions of [db.py] *)

(** [try: m  finally: f] *)
Definition try_finally {A} (m : M A) (f : M unit) : M A :=
  fun w => match m w with
           | (r, w') => match f w' with
                        | (Return _, w'') => (r, w'')
                        | (Raise e, w'') => (Raise e, w'')
                        end
           end.

(** [conn = None] / [try: conn = get_connection(); body] / [except: h]:
    the handler sees [conn] as it was when the exception was raised. *)
Definition try_with_connection {A} (body : Connection -> M A)
    (h : option Connection -> exn -> M A) : M A :=
  fun w => match get_connection w with
           | (Return conn, w') => try_except (body conn) (h (Some conn)) w'
           | (Raise e, w') => h None e w'
           end.

(** A CREATE statement of [init_db]. *)
Definition execute_ddl (conn : Connection) (f : Database -> Database) : M unit :=
  store_call ;; fun w => (Return tt, set_db w (f (db w))).

Definition create_tables (d : Database) : Database :=
  mkDatabase true (Categories d) (Products d) (sqlite_sequence d).

Definition init_db : M unit :=
  conn <- get_connection ;;
  begin_transaction conn ;;
  try_finally
    (try_except
       (execute_ddl conn (fun d => d) ;;       (* CREATE TABLE Categories *)
        execute_ddl conn create_tables ;;      (* CREATE TABLE Products *)
        execute_ddl conn (fun d => d) ;;       (* CREATE INDEX idx_products_category_id *)
        execute_ddl conn (fun d => d) ;;       (* CREATE INDEX idx_products_name *)
        commit conn)
       (fun e => rollback conn ;; raise e))
    (close conn).

Definition get_all_categories : M (list (Z * string)) :=
  conn <- get_connection ;;
  categories <- execute conn (query select_categories) ;;
  close conn ;;
  ret (map (fun row => (c_category_id row, c_name row)) categories).

Definition add_category (name : string) : M bool :=
  try_with_connection
    (fun conn =>
       execute conn (insert_category name) ;;
       commit conn ;;
       close conn ;;
       ret true)
    (fun conn e =>
       match e with
       | IntegrityError =>
           match conn with
           | Some c => close c ;; ret false
           | None => raise UnboundLocalError
           end
       | _ => raise e
       end).

Definition delete_category (category_id : Z) : M bool :=
  try_with_connection
    (fun conn =>
       begin_transaction conn ;;
       product_count <- execute conn (query (count_products_in_category category_id)) ;;
       if product_count >? 0 then
         rollback conn ;;
         close conn ;;
         ret false
       else
         execute conn (delete_category_row conn category_id) ;;
         remaining_count <- execute conn (query count_categories) ;;
         (if remaining_count =? 0 then
            execute conn (delete_sequence "Categories") ;;
            execute conn (insert_sequence "Categories" 0)
          else ret tt) ;;
         commit conn ;;
         close conn ;;
         ret true)
    (fun conn _ =>
       match conn with
       | Some c => rollback c ;; close c
       | None => ret tt
       end ;;
       ret false).

Definition get_all_products : M (list ProductRow) :=
  conn <- get_connection ;;
  products <- execute conn (query (select_products no_filter)) ;;
  close conn ;;
  ret products.

(** Python's truth value of an [Optional[List[int]]] and of an
    [Optional[int]]. *)
Definition truthy_list (l : option (list Z)) : bool :=
  match l with
  | Some (_ :: _) => true
  | _ => false
  end.

Definition truthy_int (n : option Z) : bool :=
  match n with
  | Some n => negb (n =? 0)
  | None => false
  end.

Definition the_list (l : option (list Z)) : list Z :=
  match l with Some l => l | None => [] end.

Definition the_int (n : option Z) : Z :=
  match n with Some n => n | None => 0 end.

(** The WHERE clause both filtered functions choose. *)
Definition where_clause (category_id : option Z) (category_ids : option (list Z))
    : Product -> bool :=
  if truthy_list category_ids && (0 <? Z.of_nat (List.length (the_list category_ids)))
  then category_in (the_list category_ids)
  else if truthy_int category_id
  then category_is (the_int category_id)
  else no_filter.

Definition get_products_by_category (category_id : option Z)
    (category_ids : option (list Z)) : M (list ProductRow) :=
  conn <- get_connection ;;
  products <-
    (if truthy_list category_ids && (0 <? Z.of_nat (List.length (the_list category_ids)))
     then execute conn (query (select_products (category_in (the_list category_ids))))
     else if truthy_int category_id
     then execute conn (query (select_products (category_is (the_int category_id))))
     else execute conn (query (select_products no_filter))) ;;
  close conn ;;
  ret products.

Definition add_product (name : string) (price : spec_float) (stock category_id : Z)
    : M bool :=
  try_with_connection
    (fun conn =>
       execute conn (insert_product conn name price stock category_id) ;;
       commit conn ;;
       close conn ;;
       ret true)
    (fun conn _ =>
       match conn with
       | Some c => close c
       | None => ret tt
       end ;;
       ret false).

Definition update_product (product_id : Z) (name : string) (price : spec_float)
    (stock category_id : Z) : M bool :=
  try_with_connection
    (fun conn =>
       begin_transaction conn ;;
       execute conn (update_product_row conn product_id name price stock category_id) ;;
       commit conn ;;
       close conn ;;
       ret true)
    (fun conn _ =>
       match conn with
       | Some c => rollback c ;; close c
       | None => ret tt
       end ;;
       ret false).

Definition delete_product (product_id : Z) : M bool :=
  try_with_connection
    (fun conn =>
       begin_transaction conn ;;
       execute conn (delete_product_row product_id) ;;
       remaining_count <- execute conn (query count_products) ;;
       (if remaining_count =? 0 then
          execute conn (delete_sequence "Products") ;;
          execute conn (insert_sequence "Products" 0)
        else ret tt) ;;
       commit conn ;;
       close conn ;;
       ret true)
    (fun conn _ =>
       match conn with
       | Some c => rollback c ;; close c
       | None => ret tt
       end ;;
       ret false).

Definition get_product_by_id (product_id : Z) : M (option ProductRow) :=
  conn <- get_connection ;;
  product <- execute conn (query (select_product_by_id product_id)) ;;
  close conn ;;
  ret product.

Record Report := mkReport {
  avg_price : spec_float;
  total_stock : Z;
  total_value : spec_float
}.

Definition get_category_report (N : Numerics) (category_id : option Z)
    (category_ids : option (list Z)) : M Report :=
  conn <- get_connection ;;
  result <-
    (if truthy_list category_ids && (0 <? Z.of_nat (List.length (the_list category_ids)))
     then execute conn (query (select_report N (category_in (the_list category_ids))))
     else if truthy_int category_id
     then execute conn (query (select_report N (category_is (the_int category_id))))
     else execute conn (query (select_report N no_filter))) ;;
  close conn ;;
  let avg_price :=
    match fst (fst result) with
    | Some x => py_round N x 2
    | None => S754_zero false
    end in
  ret (mkReport avg_price
                (match snd (fst result) with Some n => n | None => 0 end)
                (match snd result with Some x => x | None => S754_zero false end)).

(** ** Worlds between two calls *)

(** No fault is scheduled, no transaction is open and [init_db] has run. *)
Definition ready (w : World) : Prop :=
  faults w = [] /\ txn w = None /\ has_tables (db w) = true.

(** The world a call leaves when it ran without a fault on [w], closed its
    connection and left the database [d]. *)
Definition settled (w : World) (d : Database) : World :=
  mkWorld d None
          (filter (fun c => negb (Nat.eqb c (next_conn w))) (open_conns w))
          (S (next_conn w)) [].

Definition fresh : World := mkWorld empty_file None [] 0%nat [].

Ltac unfold_py :=
  unfold try_with_connection, get_connection, connect, execute_pragma_wal,
    begin_transaction, try_except, try_finally, execute, execute_ddl, query,
    commit, close, rollback, bind, ret, raise, store_call,
    set_db, set_txn, set_faults in *.

Ltac on_ready w :=
  let ht := fresh "ht" in
  let cs := fresh "cs" in
  let ps := fresh "ps" in
  let sq := fresh "sq" in
  let t := fresh "t" in
  let oc := fresh "oc" in
  let nc := fresh "nc" in
  let fs := fresh "fs" in
  destruct w as [[ht cs ps sq] t oc nc fs];
  unfold ready; simpl; intros (-> & -> & ->).

(** *** The effect of a computation on the open connections *)

Definition without (id : nat) (conns : list nat) : list nat :=
  filter (fun c => negb (Nat.eqb c id)) conns.

(** [m] opens and closes nothing. *)
Definition keeps_conns {A} (m : M A) : Prop :=
  forall w, open_conns (snd (m w)) = open_conns w.

(** [m] has closed connection [id] when it returns, and has touched no
    connection when it raises. *)
Definition closes_on_return (id : nat) {A} (m : M A) : Prop :=
  forall w, match m w with
            | (Return _, w') => open_conns w' = without id (open_conns w)
            | (Raise _, w') => open_conns w' = open_conns w
            end.

(** [m] has closed connection [id] however it ends. *)
Definition closes_always (id : nat) {A} (m : M A) : Prop :=
  forall w, open_conns (snd (m w)) = without id (open_conns w).

(** No connection is open after [m] that was not open before it: the
    connection [m] opened has been closed. *)
Definition releases {A} (m : M A) : Prop :=
  forall w c, In c (open_conns (snd (m w))) -> In c (open_conns w).

(** The rowids of a table are positive and none exceeds the table's
    counter in [sqlite_sequence]. *)
Definition ids_valid (table : string) (ids : list Z) (s : list (string * Z)) : Prop :=
  forall i, In i ids -> 1 <= i <= counter table s.

Definition category_ids (d : Database) : list Z := map c_category_id (Categories d).

Definition product_ids (d : Database) : list Z := map p_product_id (Products d).

(** The invariant of AUTOINCREMENT on both tables. *)
Definition ids_in_range (d : Database) : Prop :=
  ids_valid "Categories" (category_ids d) (sqlite_sequence d) /\
  ids_valid "Products" (product_ids d) (sqlite_sequence d).

(** The product a joined row was made from. *)
Definition product_of_row (r : ProductRow) : Product :=
  mkProduct (r_product_id r) (r_name r) (r_price r) (r_stock r) (r_category_id r).

(** The joined row of a product and its category. *)
Definition row_of (p : Product) (c : Category) : ProductRow :=
  mkProductRow (p_product_id p) (p_name p) (p_price p) (p_stock p)
               (p_category_id p) (c_name c).

(** Every product's [category_id] is the id of a category. *)
Definition no_orphans (d : Database) : Prop :=
  forall p, In p (Products d) -> category_exists (p_category_id p) d = true.

(** The entries of a category listing that carry a given name. *)
Definition named (name : string) (rows : list (Z * string)) : list (Z * string) :=
  filter (fun r => String.eqb (snd r) name) rows.

(** *** Some concrete worlds *)

(** 10.0 as a binary64. *)
Definition ten : spec_float := S754_finite false 5629499534213120 (-49).

(** 20.0 as a binary64. *)
Definition twenty : spec_float := S754_finite false 5629499534213120 (-48).

(** The store after [init_db()] on a new file. *)
Definition initialised : World := snd (init_db fresh).

(** ... and after [add_category("Tools")]. *)
Definition with_tools : World := snd (add_category "Tools" initialised).

(** ... and after [add_product("Widget", 10.0, 5, 42)], for a category 42
    that does not exist. *)
Definition with_orphan : World := snd (add_product "Widget" ten 5 42 with_tools).

(** ... and after [add_product("Hammer", 10.0, 2, 1)]. *)
Definition with_hammer : World := snd (add_product "Hammer" ten 2 1 with_tools).

(** The store is about to fail on the third call into it: the connection
    opens, the PRAGMA runs, the statement fails. *)
Definition failing_statement (w : World) : World :=
  set_faults w [false; false; true].

(** *** What each function does on a ready world *)

Definition db_add_category (name : string) (d : Database) : Database :=
  let id := next_rowid "Categories" (map c_category_id (Categories d))
                       (sqlite_sequence d) in
  mkDatabase true (Categories d ++ [mkCategory id name]) (Products d)
             (set_seq "Categories" id (sqlite_sequence d)).

Definition reset_sequence (table : string) (s : list (string * Z)) : list (string * Z) :=
  filter (fun r => negb (String.eqb (fst r) table)) s ++ [(table, 0)].

Definition db_delete_category (cid : Z) (d : Database) : Database :=
  let cs := filter (fun c => negb (c_category_id c =? cid)) (Categories d) in
  mkDatabase true cs (Products d)
             (if Z.of_nat (List.length cs) =? 0
              then reset_sequence "Categories" (sqlite_sequence d)
              else sqlite_sequence d).

Definition db_add_product (name : string) (price : spec_float) (stock cid : Z)
    (d : Database) : Database :=
  let id := next_rowid "Products" (map p_product_id (Products d))
                       (sqlite_sequence d) in
  mkDatabase true (Categories d)
             (Products d ++ [mkProduct id name price stock cid])
             (set_seq "Products" id (sqlite_sequence d)).

Definition db_update_product (pid : Z) (name : string) (price : spec_float)
    (stock cid : Z) (d : Database) : Database :=
  mkDatabase true (Categories d)
             (map (fun p => if p_product_id p =? pid
                            then mkProduct (p_product_id p) name price stock cid
                            else p)
                  (Products d))
             (sqlite_sequence d).

Definition db_delete_product (pid : Z) (d : Database) : Database :=
  let ps := filter (fun p => negb (p_product_id p =? pid)) (Products d) in
  mkDatabase true (Categories d) ps
             (if Z.of_nat (List.length ps) =? 0
              then reset_sequence "Products" (sqlite_sequence d)
              else sqlite_sequence d).


(** ** Specifications of computations *)

(** From a world that satisfies [P], the outcome of [m] and the world it
    leaves satisfy [Q]. *)
Definition spec {A} (P : World -> Prop) (m : M A)
    (Q : outcome A -> World -> Prop) : Prop :=
  forall w, P w -> Q (fst (m w)) (snd (m w)).

(** No transaction is open and the database is [s]. *)
Definition idle (s : Database) (w : World) : Prop :=
  txn w = None /\ db w = s.

(** Connection [c] has a transaction open that started from [s]. *)
Definition in_txn (c : nat) (s : Database) (w : World) : Prop :=
  txn w = Some (c, s).

(** What the body of a guarded function leaves: when it returns, no
    transaction is open, and the database is [s] if it returns [False];
    when it raises, the transaction is still open or nothing was done. *)
Definition guarded_body (c : nat) (s : Database) (o : outcome bool) (w : World) : Prop :=
  match o with
  | Return b => txn w = None /\ (b = false -> db w = s)
  | Raise _ => in_txn c s w \/ idle s w
  end.

(** [m] returns a boolean in every world, leaves no transaction open, and
    leaves the database as it was when it returns [False]. *)
Definition all_or_nothing (m : M bool) : Prop :=
  forall w, txn w = None ->
    exists b, fst (m w) = Return b /\
              txn (snd (m w)) = None /\
              (b = false -> db (snd (m w)) = db w).

(** [m] leaves the database and the transaction state alone. *)
Definition read_only {A} (m : M A) : Prop :=
  forall w, txn w = None -> db (snd (m w)) = db w /\ txn (snd (m w)) = None.

(** Case analysis on the next [n] entries of a fault schedule: the
    schedule ends, the next call fails, or it passes and the analysis goes
    on. *)
Ltac split_faults fs n :=
  match n with
  | O => idtac
  | S ?k =>
      let b := fresh "b" in
      let r := fresh "fs" in
      destruct fs as [|b r]; [| destruct b; [| split_faults r k]]
  end.

(** The keys the schema declares: both primary keys and the category name
    are unique. *)
Definition keys_unique (d : Database) : Prop :=
  NoDup (category_ids d) /\ NoDup (product_ids d) /\
  NoDup (map c_name (Categories d)).

Definition well_formed (d : Database) : Prop := ids_in_range d /\ keys_unique d.

(** The stock of the rows of a listing. *)
Definition listed_stock (rows : list ProductRow) : Z :=
  fold_right Z.add 0 (map r_stock rows).

(** When [m] returns, no connection is open that was not open before. *)
Definition releases_on_return {A} (m : M A) : Prop :=
  forall w a w', m w = (Return a, w') ->
    forall c, In c (open_conns w') -> In c (open_conns w).

(** ** The Reports page of [app.py] *)

(** A Python [dict] from category names to ids, in insertion order;
    [d[k] = v] replaces the value of a key that is there and appends a new
    key, [d[k]] reads the value of a key. *)
Definition dict_set (k : string) (v : Z) (d : list (string * Z)) : list (string * Z) :=
  set_seq k v d.

Definition dict_get (k : string) (d : list (string * Z)) : option Z := seq_of k d.

(** [{name: cat_id for cat_id, name in categories}] *)
Definition category_dict (categories : list (Z * string)) : list (string * Z) :=
  fold_left (fun d row => dict_set (snd row) (fst row) d) categories [].

(** [[category_dict[name] for name in names]]; [None] is the KeyError of a
    name that is no key. *)
Fixpoint lookup_all (d : list (string * Z)) (names : list string) : option (list Z) :=
  match names with
  | [] => Some []
  | name :: rest =>
      match dict_get name d with
      | None => None
      | Some v => option_map (cons v) (lookup_all d rest)
      end
  end.

(** What the page computes, or the KeyError that ends the script. *)
Inductive page (A : Type) :=
| Rendered (a : A)
| KeyError.
Arguments Rendered {A} a.
Arguments KeyError {A}.

(** The [category_ids] of lines 178-197, from the listing and the names
    the multiselect returned. *)
Definition selected_category_ids (categories : list (Z * string))
    (selected_category_names : list string) : option (option (list Z)) :=
  match categories with
  | _ :: _ =>
      match selected_category_names with
      | [] => Some None
      | _ :: _ =>
          option_map Some (lookup_all (category_dict categories) selected_category_names)
      end
  | [] => Some None
  end.

(** [category_ids if category_ids else None] *)
Definition or_none (category_ids : option (list Z)) : option (list Z) :=
  if truthy_list category_ids then category_ids else None.

(** The data the Reports page shows: the report and the table, for the
    names selected in the multiselect. *)
Definition reports_page (N : Numerics) (selected_category_names : list string)
    : M (page (Report * list ProductRow)) :=
  categories <- get_all_categories ;;
  match selected_category_ids categories selected_category_names with
  | None => ret KeyError
  | Some category_ids =>
      report <- get_category_report N None (or_none category_ids) ;;
      products <- get_products_by_category None (or_none category_ids) ;;
      ret (Rendered (report, products))
  end.

(** The report on the rows a WHERE clause selects. *)
Definition report_of (N : Numerics) (where_ : Product -> bool) (d : Database) : Report :=
  let result := select_report N where_ d in
  mkReport
    (match fst (fst result) with Some x => py_round N x 2 | None => S754_zero false end)
    (match snd (fst result) with Some n => n | None => 0 end)
    (match snd result with Some x => x | None => S754_zero false end).
(** * Properties *)

Lemma ready_settled w d : has_tables d = true -> ready (settled w d).
Proof. intros H. repeat split. exact H. Qed.

Lemma db_settled w d : db (settled w d) = d.
Proof. reflexivity. Qed.

Lemma get_all_categories_ready w :
  ready w ->
  get_all_categories w =
  (Return (map (fun row => (c_category_id row, c_name row)) (select_categories (db w))),
   settled w (db w)).
Proof.
  on_ready w. unfold get_all_categories, settled. unfold_py. cbn.
  rewrite Nat.eqb_refl. reflexivity.
Qed.

Lemma add_category_ready w name :
  ready w ->
  add_category name w =
  if name_taken name (db w)
  then (Return false, settled w (db w))
  else (Return true, settled w (db_add_category name (db w))).
Proof.
  on_ready w.
  unfold add_category, insert_category, db_add_category, settled, name_taken.
  unfold_py. cbn.
  destruct (existsb _ cs); cbn; rewrite Nat.eqb_refl; reflexivity.
Qed.

Lemma delete_category_ready w cid :
  ready w ->
  delete_category cid w =
  if count_products_in_category cid (db w) >? 0
  then (Return false, settled w (db w))
  else (Return true, settled w (db_delete_category cid (db w))).
Proof.
  on_ready w.
  unfold delete_category, delete_category_row, delete_sequence, insert_sequence,
    db_delete_category, reset_sequence, count_categories, settled,
    set_Categories, set_sqlite_sequence.
  unfold_py. cbn.
  destruct (count_products_in_category cid _ >? 0); cbn;
    rewrite ?Nat.eqb_refl; cbn; rewrite ?Nat.eqb_refl; try reflexivity.
  destruct (Z.of_nat (List.length _) =? 0); cbn;
    rewrite ?Nat.eqb_refl; cbn; rewrite ?Nat.eqb_refl; reflexivity.
Qed.

Lemma get_products_by_category_ready w category_id category_ids :
  ready w ->
  get_products_by_category category_id category_ids w =
  (Return (select_products (where_clause category_id category_ids) (db w)),
   settled w (db w)).
Proof.
  on_ready w. unfold get_products_by_category, where_clause, settled. unfold_py. cbn.
  destruct (truthy_list category_ids && _); [| destruct (truthy_int category_id)];
    cbn; rewrite Nat.eqb_refl; reflexivity.
Qed.

Lemma get_all_products_ready w :
  ready w ->
  get_all_products w = (Return (select_products no_filter (db w)), settled w (db w)).
Proof.
  on_ready w. unfold get_all_products, settled. unfold_py. cbn.
  rewrite Nat.eqb_refl. reflexivity.
Qed.

Lemma add_product_ready w name price stock cid :
  ready w ->
  add_product name price stock cid w =
  if binds_null price
  then (Return false, settled w (db w))
  else (Return true, settled w (db_add_product name price stock cid (db w))).
Proof.
  on_ready w. unfold add_product, insert_product, db_add_product, settled.
  unfold_py. cbn.
  destruct (binds_null price); cbn; rewrite Nat.eqb_refl; reflexivity.
Qed.

Lemma update_product_ready w pid name price stock cid :
  ready w ->
  update_product pid name price stock cid w =
  if existsb (fun p => p_product_id p =? pid) (Products (db w)) && binds_null price
  then (Return false, settled w (db w))
  else (Return true, settled w (db_update_product pid name price stock cid (db w))).
Proof.
  on_ready w.
  unfold update_product, update_product_row, db_update_product, settled, set_Products.
  unfold_py. cbn. rewrite orb_false_r.
  destruct (existsb _ ps && binds_null price); cbn;
    rewrite ?Nat.eqb_refl; cbn; rewrite ?Nat.eqb_refl; reflexivity.
Qed.

Lemma delete_product_ready w pid :
  ready w ->
  delete_product pid w = (Return true, settled w (db_delete_product pid (db w))).
Proof.
  on_ready w.
  unfold delete_product, delete_product_row, delete_sequence, insert_sequence,
    db_delete_product, reset_sequence, count_products, settled,
    set_Products, set_sqlite_sequence.
  unfold_py. cbn.
  destruct (Z.of_nat (List.length _) =? 0); cbn;
    rewrite ?Nat.eqb_refl; cbn; rewrite ?Nat.eqb_refl; reflexivity.
Qed.

Lemma get_product_by_id_ready w pid :
  ready w ->
  get_product_by_id pid w = (Return (select_product_by_id pid (db w)), settled w (db w)).
Proof.
  on_ready w. unfold get_product_by_id, settled. unfold_py. cbn.
  rewrite Nat.eqb_refl. reflexivity.
Qed.

(** ** Connections: who closes what *)

Lemma keeps_ret {A} (a : A) : keeps_conns (ret a).
Proof. intros w. reflexivity. Qed.

Lemma keeps_raise {A} (e : exn) : keeps_conns (@raise A e).
Proof. intros w. reflexivity. Qed.

Lemma keeps_store_call : keeps_conns store_call.
Proof.
  intros w. unfold store_call.
  destruct (faults w) as [|[] fs]; reflexivity.
Qed.

Lemma keeps_bind {A B} (m : M A) (k : A -> M B) :
  keeps_conns m -> (forall a, keeps_conns (k a)) -> keeps_conns (bind m k).
Proof.
  intros Hm Hk w. unfold bind. specialize (Hm w).
  destruct (m w) as [[a|e] w']; simpl in *.
  - rewrite Hk. exact Hm.
  - exact Hm.
Qed.

Lemma keeps_try_except {A} (m : M A) (h : exn -> M A) :
  keeps_conns m -> (forall e, keeps_conns (h e)) -> keeps_conns (try_except m h).
Proof.
  intros Hm Hh w. unfold try_except. specialize (Hm w).
  destruct (m w) as [[a|e] w']; simpl in *.
  - exact Hm.
  - rewrite Hh. exact Hm.
Qed.

Lemma keeps_execute {A} conn (stmt : Database -> outcome (A * Database)) :
  keeps_conns (execute conn stmt).
Proof.
  apply keeps_bind; [apply keeps_store_call|]. intros _ w.
  destruct (has_tables (db w)); [|reflexivity].
  destruct (stmt (db w)) as [[a d]|e]; reflexivity.
Qed.

Lemma keeps_begin_transaction conn : keeps_conns (begin_transaction conn).
Proof.
  apply keeps_bind; [apply keeps_store_call|]. intros _ w.
  destruct (txn w); reflexivity.
Qed.

Lemma keeps_rollback conn : keeps_conns (rollback conn).
Proof.
  intros w. unfold rollback.
  destruct (txn w) as [[owner snapshot]|]; [|reflexivity].
  destruct (Nat.eqb owner (conn_id conn)); reflexivity.
Qed.

Lemma keeps_commit conn : keeps_conns (commit conn).
Proof.
  intros w. unfold commit.
  destruct (txn w) as [[owner snapshot]|] eqn:E; [|reflexivity].
  destruct (Nat.eqb owner (conn_id conn)); [|reflexivity].
  apply (keeps_bind store_call); [apply keeps_store_call|].
  intros _ w'. reflexivity.
Qed.

Lemma close_conns conn w :
  open_conns (snd (close conn w)) = without (conn_id conn) (open_conns w).
Proof.
  unfold close, bind. pose proof (keeps_rollback conn w) as H.
  destruct (rollback conn w) as [[u|e] w'] eqn:E; simpl in *.
  - rewrite H. reflexivity.
  - unfold rollback in E. destruct (txn w) as [[owner snapshot]|];
      [destruct (Nat.eqb owner (conn_id conn))|]; discriminate.
Qed.

Lemma close_returns conn w : exists w', close conn w = (Return tt, w').
Proof.
  unfold close, bind, rollback.
  destruct (txn w) as [[owner snapshot]|];
    [destruct (Nat.eqb owner (conn_id conn))|]; eexists; reflexivity.
Qed.

Lemma without_idem id l : without id (without id l) = without id l.
Proof.
  unfold without. induction l as [|x l IH]; simpl; [reflexivity|].
  destruct (negb (Nat.eqb x id)) eqn:E; simpl; rewrite ?E, IH; reflexivity.
Qed.

Lemma without_In id l c : In c (without id l) -> In c l /\ c <> id.
Proof.
  unfold without. intros H. apply filter_In in H. destruct H as [H1 H2].
  split; [exact H1|]. intros ->. rewrite Nat.eqb_refl in H2. discriminate.
Qed.

(** [keep ;; rest]: a prefix that touches no connection. *)
Lemma closes_on_return_bind {A B} id (m : M A) (k : A -> M B) :
  keeps_conns m -> (forall a, closes_on_return id (k a)) ->
  closes_on_return id (bind m k).
Proof.
  intros Hm Hk w. unfold bind. specialize (Hm w).
  destruct (m w) as [[a|e] w'] eqn:E; simpl in *.
  - specialize (Hk a w'). destruct (k a w') as [[b|e] w'']; congruence.
  - exact Hm.
Qed.

(** [conn.close(); return b] *)
Lemma closes_on_return_close {A} conn (b : A) :
  closes_on_return (conn_id conn) (close conn ;; ret b).
Proof.
  intros w. unfold bind. pose proof (close_conns conn w) as H.
  destruct (close_returns conn w) as [w' E]. rewrite E in *. exact H.
Qed.

(** The [except] handlers: [if conn: (conn.rollback();) conn.close()]. *)
Lemma closes_always_close {A} conn (b : A) :
  closes_always (conn_id conn) (close conn ;; ret b).
Proof.
  intros w. unfold bind. pose proof (close_conns conn w) as H.
  destruct (close_returns conn w) as [w' E]. rewrite E in *. exact H.
Qed.

Lemma closes_always_rollback_close {A} conn (b : A) :
  closes_always (conn_id conn) ((rollback conn ;; close conn) ;; ret b).
Proof.
  intros w. unfold bind. pose proof (keeps_rollback conn w) as H.
  destruct (rollback conn w) as [[u|e] w1] eqn:E1; simpl in H.
  - pose proof (close_conns conn w1) as H1.
    destruct (close_returns conn w1) as [w2 E2]. rewrite E2 in *.
    simpl in *. congruence.
  - unfold rollback in E1. destruct (txn w) as [[owner snapshot]|];
      [destruct (Nat.eqb owner (conn_id conn))|]; discriminate.
Qed.

Lemma get_connection_conns w :
  match get_connection w with
  | (Return conn, w') =>
      conn_id conn = next_conn w /\ open_conns w' = next_conn w :: open_conns w
  | (Raise _, w') => open_conns w' = open_conns w
  end.
Proof.
  destruct w as [d t oc nc fs]. unfold get_connection. unfold_py. cbn.
  destruct fs as [|[] [|[] fs]]; cbn; auto.
Qed.

(** The shape shared by the guarded functions: whatever the body does
    before it closes, the connection is closed at the end. *)
Lemma try_with_connection_releases {A} (body : Connection -> M A)
    (h : option Connection -> exn -> M A) :
  (forall conn, closes_on_return (conn_id conn) (body conn)) ->
  (forall conn e, closes_always (conn_id conn) (h (Some conn) e)) ->
  (forall e, keeps_conns (h None e)) ->
  releases (try_with_connection body h).
Proof.
  intros Hbody Hsome Hnone w c. unfold try_with_connection.
  pose proof (get_connection_conns w) as Hg.
  destruct (get_connection w) as [[conn|e] w1].
  - destruct Hg as [Hid Hopen]. unfold try_except.
    specialize (Hbody conn w1).
    destruct (body conn w1) as [[a|e] w2]; simpl.
    + rewrite Hbody, Hopen, Hid. intros H. apply without_In in H.
      destruct H as [[H|H] Hne]; [congruence | exact H].
    + rewrite (Hsome conn e w2), Hbody, Hopen, Hid. intros H.
      apply without_In in H.
      destruct H as [[H|H] Hne]; [congruence | exact H].
  - rewrite (Hnone e w1), Hg. auto.
Qed.

(** *** The guarded functions close their connection on every path *)

Ltac keeps :=
  repeat first
    [ apply keeps_ret | apply keeps_raise | apply keeps_store_call
    | apply keeps_execute | apply keeps_begin_transaction
    | apply keeps_rollback | apply keeps_commit
    | apply keeps_bind; [| intros ?]
    | match goal with
      | |- keeps_conns (if ?b then _ else _) => destruct b
      end ].

Ltac closes :=
  repeat first
    [ apply closes_on_return_close
    | apply closes_on_return_bind; [solve [keeps] | intros ?]
    | match goal with
      | |- closes_on_return _ (if ?b then _ else _) => destruct b
      end ].

Lemma delete_category_releases cid : releases (delete_category cid).
Proof.
  apply try_with_connection_releases.
  - intros conn. closes.
  - intros conn e. apply closes_always_rollback_close.
  - intros e. keeps.
Qed.

Lemma add_product_releases name price stock cid :
  releases (add_product name price stock cid).
Proof.
  apply try_with_connection_releases.
  - intros conn. closes.
  - intros conn e. apply closes_always_close.
  - intros e. keeps.
Qed.

Lemma update_product_releases pid name price stock cid :
  releases (update_product pid name price stock cid).
Proof.
  apply try_with_connection_releases.
  - intros conn. closes.
  - intros conn e. apply closes_always_rollback_close.
  - intros e. keeps.
Qed.

Lemma delete_product_releases pid : releases (delete_product pid).
Proof.
  apply try_with_connection_releases.
  - intros conn. closes.
  - intros conn e. apply closes_always_rollback_close.
  - intros e. keeps.
Qed.

(** [add_category] closes its connection when it returns. *)
Lemma add_category_closes_on_return name w b w' :
  add_category name w = (Return b, w') ->
  forall c, In c (open_conns w') -> In c (open_conns w).
Proof.
  unfold add_category, try_with_connection. intros H c.
  pose proof (get_connection_conns w) as Hg.
  destruct (get_connection w) as [[conn|e] w1]; [|destruct e; discriminate].
  destruct Hg as [Hid Hopen]. unfold try_except in H.
  remember (execute conn (insert_category name) ;; commit conn ;;
            close conn ;; ret true) as body eqn:Ebody.
  assert (Hb : closes_on_return (conn_id conn) body) by (subst body; closes).
  specialize (Hb w1). destruct (body w1) as [[a|e] w2].
  - inversion H; subst b w'. rewrite Hb, Hopen, Hid. intros Hin.
    apply without_In in Hin. destruct Hin as [[Hin|Hin] Hne]; [congruence|exact Hin].
  - destruct e; try discriminate.
    pose proof (closes_always_close conn false w2) as Hc.
    rewrite H in Hc. simpl in Hc. rewrite Hc, Hb, Hopen, Hid. intros Hin.
    apply without_In in Hin. destruct Hin as [[Hin|Hin] Hne]; [congruence|exact Hin].
Qed.

(** C3 -- the connection is NOT closed on every exit path.  When the
    statement raises (here: the store fails on it, or the tables do not
    exist), [get_all_categories], [add_category], [get_all_products],
    [get_products_by_category], [get_product_by_id] and
    [get_category_report] let the exception out with the connection they
    opened still open; only the four functions with an [except Exception]
    handler close it (lemmas [*_releases]). *)
Theorem unguarded_functions_leak_connection (N : Numerics) :
  let w := failing_statement initialised in
  open_conns w = [] /\
  get_all_categories w
    = (Raise OperationalError, mkWorld (db w) None [next_conn w] (S (next_conn w)) []) /\
  add_category "Tools" w
    = (Raise OperationalError, mkWorld (db w) None [next_conn w] (S (next_conn w)) []) /\
  get_all_products w
    = (Raise OperationalError, mkWorld (db w) None [next_conn w] (S (next_conn w)) []) /\
  get_products_by_category None None w
    = (Raise OperationalError, mkWorld (db w) None [next_conn w] (S (next_conn w)) []) /\
  get_product_by_id 1 w
    = (Raise OperationalError, mkWorld (db w) None [next_conn w] (S (next_conn w)) []) /\
  get_category_report N None None w
    = (Raise OperationalError, mkWorld (db w) None [next_conn w] (S (next_conn w)) []) /\
  get_all_categories fresh
    = (Raise OperationalError, mkWorld (db fresh) None [next_conn fresh] 1%nat []).
Proof. repeat split. Qed.

(** ** Foreign keys *)

(** On a connection that had [foreign_keys] on, the INSERT would be
    refused. *)
Lemma insert_product_enforced name price stock cid d :
  category_exists cid d = false ->
  insert_product (mkConnection 0 true) name price stock cid d = Raise IntegrityError.
Proof.
  intros H. unfold insert_product. simpl. rewrite H.
  destruct (binds_null price); reflexivity.
Qed.

(** [get_connection] never turns the pragma on. *)
Lemma get_connection_foreign_keys w conn w' :
  get_connection w = (Return conn, w') -> foreign_keys conn = false.
Proof.
  destruct w as [d t oc nc fs]. unfold get_connection. unfold_py. cbn.
  destruct fs as [|[] [|[] fs]]; cbn; intros H; inversion H; reflexivity.
Qed.

(** [add_product] stores whatever [category_id] it is given. *)
Lemma add_product_any_category w name price stock cid :
  ready w -> binds_null price = false ->
  fst (add_product name price stock cid w) = Return true /\
  In (mkProduct (next_rowid "Products" (map p_product_id (Products (db w)))
                            (sqlite_sequence (db w)))
                name price stock cid)
     (Products (db (snd (add_product name price stock cid w)))).
Proof.
  intros Hr Hp. rewrite (add_product_ready _ _ _ _ _ Hr), Hp. simpl.
  split; [reflexivity|]. apply in_or_app. right. left. reflexivity.
Qed.

(** C1 -- [add_product] does NOT refuse an unknown category.  On the store
    that [init_db] and [add_category("Tools")] leave (one category, id 1),
    [add_product("Widget", 10.0, 5, 42)] returns [True] and the row with
    [category_id = 42] is stored, although no category 42 exists: the
    FOREIGN KEY clause of [init_db] is never enforced, since
    [get_connection] leaves the [foreign_keys] pragma off. *)
Theorem add_product_unknown_category_is_stored :
  Categories (db with_tools) = [mkCategory 1 "Tools"] /\
  category_exists 42 (db with_tools) = false /\
  fst (add_product "Widget" ten 5 42 with_tools) = Return true /\
  Products (db (snd (add_product "Widget" ten 5 42 with_tools)))
    = [mkProduct 1 "Widget" ten 5 42].
Proof. repeat split. Qed.

(** ** Guarded delete *)

(** C2 -- deleting a category that a product references returns [False]
    and leaves the whole database (both tables and [sqlite_sequence]) as it
    was, whatever the store does during the call. *)
Theorem delete_category_refused (w : World) (cid : Z) :
  txn w = None ->
  0 < count_products_in_category cid (db w) ->
  fst (delete_category cid w) = Return false /\
  db (snd (delete_category cid w)) = db w.
Proof.
  destruct w as [[ht cs ps sq] t oc nc fs]. simpl. intros -> Hc.
  apply Z.gtb_lt in Hc.
  unfold delete_category. unfold_py. cbn.
  destruct fs as [|[] [|[] [|[] [|[] fs]]]]; cbn; auto.
  all: destruct ht; cbn; rewrite ?Hc; cbn; rewrite ?Nat.eqb_refl; cbn; auto.
Qed.

Lemma delete_category_refused_witness :
  fst (delete_category 1 with_hammer) = Return false /\
  db (snd (delete_category 1 with_hammer)) = db with_hammer.
Proof.
  apply (delete_category_refused with_hammer 1); [reflexivity | vm_compute; reflexivity].
Defined.

(** ** Rows that are not there *)

Lemma filter_none {A} (f : A -> bool) (l : list A) :
  existsb f l = false -> filter (fun x => negb (f x)) l = l.
Proof.
  induction l as [|x l IH]; simpl; [reflexivity|].
  intros H. apply orb_false_iff in H. destruct H as [Hx Hl].
  rewrite Hx. simpl. rewrite (IH Hl). reflexivity.
Qed.

Lemma map_none {A} (f : A -> bool) (g : A -> A) (l : list A) :
  existsb f l = false -> map (fun x => if f x then g x else x) l = l.
Proof.
  induction l as [|x l IH]; simpl; [reflexivity|].
  intros H. apply orb_false_iff in H. destruct H as [Hx Hl].
  rewrite Hx, (IH Hl). reflexivity.
Qed.



(** ** The filter parameters *)

Lemma get_category_report_where N category_id category_ids w :
  get_category_report N category_id category_ids w =
  (conn <- get_connection ;;
   result <- execute conn (query (select_report N (where_clause category_id category_ids))) ;;
   close conn ;;
   ret (mkReport
          (match fst (fst result) with Some x => py_round N x 2 | None => S754_zero false end)
          (match snd (fst result) with Some n => n | None => 0 end)
          (match snd result with Some x => x | None => S754_zero false end))) w.
Proof.
  unfold get_category_report, where_clause.
  destruct (truthy_list category_ids && _); [| destruct (truthy_int category_id)];
    reflexivity.
Qed.


(** ** ORDER BY *)

Section OrderByFacts.
Context {A : Type} (le : A -> A -> bool).

Lemma insert_ordered_perm (x : A) (l : list A) :
  Permutation (insert_ordered le x l) (x :: l).
Proof.
  induction l as [|y l IH]; simpl; [apply Permutation_refl|].
  destruct (le x y); [apply Permutation_refl|].
  apply Permutation_trans with (y :: x :: l).
  - apply perm_skip. exact IH.
  - apply perm_swap.
Qed.

Lemma order_by_perm (l : list A) : Permutation (order_by le l) l.
Proof.
  induction l as [|x l IH]; simpl; [apply Permutation_refl|].
  apply Permutation_trans with (x :: order_by le l).
  - apply insert_ordered_perm.
  - apply perm_skip. exact IH.
Qed.

Hypothesis le_total : forall a b, le a b = true \/ le b a = true.

Lemma insert_ordered_sorted (x : A) (l : list A) :
  Sorted (fun a b => le a b = true) l ->
  Sorted (fun a b => le a b = true) (insert_ordered le x l).
Proof.
  induction l as [|y l IH]; simpl; intros Hs.
  - repeat constructor.
  - destruct (le x y) eqn:E.
    + constructor; [exact Hs | constructor; exact E].
    + inversion Hs as [|? ? Hl Hhd]; subst.
      constructor; [apply IH; exact Hl|].
      destruct l as [|z l]; simpl.
      * constructor. destruct (le_total x y) as [H|H]; [congruence | exact H].
      * destruct (le x z).
        -- constructor. destruct (le_total x y) as [H|H]; [congruence | exact H].
        -- inversion Hhd; subst. constructor. assumption.
Qed.

Lemma order_by_sorted (l : list A) : Sorted (fun a b => le a b = true) (order_by le l).
Proof.
  induction l as [|x l IH]; simpl; [constructor|].
  apply insert_ordered_sorted. exact IH.
Qed.

End OrderByFacts.

Lemma filter_length_perm {A} (f : A -> bool) (l l' : list A) :
  Permutation l l' -> List.length (filter f l) = List.length (filter f l').
Proof.
  induction 1 as [|x l l' _ IH|x y l|l l' l'' _ IH1 _ IH2]; simpl.
  - reflexivity.
  - destruct (f x); simpl; congruence.
  - destruct (f x), (f y); reflexivity.
  - congruence.
Qed.

(** ** Category names are unique *)

Lemma name_taken_In name d :
  name_taken name d = true <-> In name (map c_name (Categories d)).
Proof.
  unfold name_taken. rewrite existsb_exists, in_map_iff. split.
  - intros (c & Hc & E). apply String.eqb_eq in E. eauto.
  - intros (c & E & Hc). exists c. split; [exact Hc|]. apply String.eqb_eq. exact E.
Qed.

Lemma count_name_absent name (cs : list Category) :
  existsb (fun c => String.eqb (c_name c) name) cs = false ->
  filter (fun c => String.eqb (c_name c) name) cs = [].
Proof.
  induction cs as [|c cs IH]; simpl; [reflexivity|].
  intros H. apply orb_false_iff in H. destruct H as [Hc Hcs].
  rewrite Hc. apply IH. exact Hcs.
Qed.

Lemma count_name_unique name (cs : list Category) :
  NoDup (map c_name cs) ->
  existsb (fun c => String.eqb (c_name c) name) cs = true ->
  List.length (filter (fun c => String.eqb (c_name c) name) cs) = 1%nat.
Proof.
  induction cs as [|c cs IH]; simpl; [discriminate|].
  intros Hnd H. inversion Hnd as [|? ? Hnotin Hnd']; subst.
  destruct (String.eqb (c_name c) name) eqn:E; simpl.
  - apply String.eqb_eq in E. subst name. rewrite count_name_absent; [reflexivity|].
    destruct (existsb _ cs) eqn:Ex; [|reflexivity].
    exfalso. apply Hnotin. apply existsb_exists in Ex.
    destruct Ex as (c' & Hin & E'). apply String.eqb_eq in E'.
    rewrite <- E'. apply in_map. exact Hin.
  - apply IH; assumption.
Qed.

(** The UNIQUE constraint is an invariant of [add_category]. *)
Lemma add_category_keeps_names_unique w name :
  ready w -> NoDup (map c_name (Categories (db w))) ->
  NoDup (map c_name (Categories (db (snd (add_category name w))))).
Proof.
  intros Hr Hnd. rewrite (add_category_ready _ _ Hr).
  destruct (name_taken name (db w)) eqn:E; simpl; [exact Hnd|].
  rewrite map_app. simpl.
  apply Permutation_NoDup with (l := name :: map c_name (Categories (db w))).
  - apply Permutation_cons_append.
  - constructor; [|exact Hnd]. intros Hin. apply name_taken_In in Hin. congruence.
Qed.

Lemma get_connection_db w : db (snd (get_connection w)) = db w.
Proof.
  destruct w as [d t oc nc fs]. unfold get_connection. unfold_py. cbn.
  destruct fs as [|[] [|[] fs]]; reflexivity.
Qed.

Lemma execute_insert_category_integrity conn name w w' :
  execute conn (insert_category name) w = (Raise IntegrityError, w') ->
  name_taken name (db w) = true.
Proof.
  destruct w as [d t oc nc fs]. unfold execute, insert_category. unfold_py. cbn.
  destruct fs as [|[] fs]; cbn; try discriminate;
    (destruct (has_tables d); [|discriminate];
     destruct (name_taken name d); [reflexivity | discriminate]).
Qed.

Lemma commit_raises conn w e w' :
  commit conn w = (Raise e, w') -> e = OperationalError.
Proof.
  destruct w as [d t oc nc fs]. unfold commit. unfold_py. cbn.
  destruct t as [[owner snapshot]|]; [|discriminate].
  destruct (Nat.eqb owner (conn_id conn)); [|discriminate].
  destruct fs as [|[] fs]; cbn; intros H; inversion H; reflexivity.
Qed.

Lemma add_category_false_only_on_collision name w :
  fst (add_category name w) = Return false -> name_taken name (db w) = true.
Proof.
  unfold add_category, try_with_connection.
  pose proof (get_connection_db w) as Hdb.
  destruct (get_connection w) as [[conn|e] w1]; simpl in Hdb.
  - unfold try_except, bind at 1.
    destruct (execute conn (insert_category name) w1) as [[u|e] w2] eqn:Ex.
    + unfold bind at 1.
      destruct (commit conn w2) as [[u'|e] w3] eqn:Ec.
      * unfold bind. destruct (close_returns conn w3) as [w4 Eq]. rewrite Eq.
        unfold ret. simpl. discriminate.
      * apply commit_raises in Ec. subst e. simpl. discriminate.
    + destruct e; simpl; try discriminate.
      intros _. rewrite <- Hdb.
      apply (execute_insert_category_integrity _ _ _ _ Ex).
  - destruct e; simpl; discriminate.
Qed.

Lemma get_all_categories_count w name :
  ready w ->
  exists rows,
    fst (get_all_categories w) = Return rows /\
    List.length (named name rows)
    = List.length (filter (fun c => String.eqb (c_name c) name) (Categories (db w))).
Proof.
  intros Hr. rewrite (get_all_categories_ready _ Hr). simpl.
  eexists. split; [reflexivity|].
  unfold named, select_categories.
  transitivity (List.length (filter (fun c => String.eqb (c_name c) name)
       (order_by (fun a b => c_category_id a <=? c_category_id b) (Categories (db w))))).
  - generalize (order_by (fun a b => c_category_id a <=? c_category_id b)
                         (Categories (db w))).
    intros l. induction l as [|c l IH]; simpl; [reflexivity|].
    destruct (String.eqb (c_name c) name); simpl; congruence.
  - apply filter_length_perm. apply order_by_perm.
Qed.

(** C7 -- adding a category under a name that is already stored returns
    [False] and leaves the database as it was; after two calls with the
    same name the listing has exactly one entry of that name; [False] is
    returned for the name collision only, and every other failure (of the
    connection or of the INSERT) leaves [add_category] as the exception it
    is. *)
Theorem add_category_duplicate (w : World) (name : string) :
  ready w ->
  NoDup (map c_name (Categories (db w))) ->
  (name_taken name (db w) = true ->
   fst (add_category name w) = Return false /\
   db (snd (add_category name w)) = db w) /\
  (let w1 := snd (add_category name w) in
   let w2 := snd (add_category name w1) in
   fst (add_category name w1) = Return false /\
   db w2 = db w1 /\
   exists rows,
     fst (get_all_categories w2) = Return rows /\
     List.length (named name rows) = 1%nat) /\
  (forall w', fst (add_category name w') = Return false ->
              name_taken name (db w') = true) /\
  (forall w' e w1,
      get_connection w' = (Raise e, w1) -> e <> IntegrityError ->
      add_category name w' = (Raise e, w1)) /\
  (forall w' conn w1 e w2,
      get_connection w' = (Return conn, w1) ->
      execute conn (insert_category name) w1 = (Raise e, w2) ->
      e <> IntegrityError ->
      add_category name w' = (Raise e, w2)) /\
  fst (add_category name (failing_statement w)) = Raise OperationalError.
Proof.
  intros Hr Hnd.
  assert (Htaken : forall v, ready v -> name_taken name (db v) = true ->
            fst (add_category name v) = Return false /\
            db (snd (add_category name v)) = db v).
  { intros v Hv Ht. rewrite (add_category_ready _ _ Hv), Ht. split; reflexivity. }
  split; [apply Htaken; exact Hr|].
  split.
  - cbv zeta.
    assert (Hr1 : ready (snd (add_category name w))).
    { rewrite (add_category_ready _ _ Hr).
      destruct (name_taken name (db w)); simpl; apply ready_settled;
        [apply Hr | reflexivity]. }
    assert (Ht1 : name_taken name (db (snd (add_category name w))) = true).
    { rewrite (add_category_ready _ _ Hr).
      destruct (name_taken name (db w)) eqn:E; simpl; [exact E|].
      unfold name_taken. simpl. rewrite existsb_app. simpl.
      rewrite String.eqb_refl. rewrite orb_true_r. reflexivity. }
    assert (Hnd1 : NoDup (map c_name (Categories (db (snd (add_category name w))))))
      by (apply add_category_keeps_names_unique; assumption).
    destruct (Htaken _ Hr1 Ht1) as [Hf Hdb].
    split; [exact Hf|]. split; [exact Hdb|].
    assert (Hr2 : ready (snd (add_category name (snd (add_category name w))))).
    { rewrite (add_category_ready _ _ Hr1), Ht1. simpl. apply ready_settled. apply Hr1. }
    destruct (get_all_categories_count _ name Hr2) as (rows & Hrows & Hlen).
    exists rows. split; [exact Hrows|].
    rewrite Hlen, Hdb. apply count_name_unique; assumption.
  - split; [intros w'; apply add_category_false_only_on_collision|].
    split; [|split].
    + intros w' e w1 Hg He. unfold add_category, try_with_connection.
      rewrite Hg. destruct e; [congruence | reflexivity | reflexivity].
    + intros w' conn w1 e w2 Hg Hx He. unfold add_category, try_with_connection.
      rewrite Hg. unfold try_except, bind at 1. rewrite Hx.
      destruct e; [congruence | reflexivity | reflexivity].
    + destruct w as [[ht cs ps sq] t oc nc fs]. reflexivity.
Qed.

Lemma add_category_duplicate_witness :
  fst (add_category "Tools" with_tools) = Return false /\
  db (snd (add_category "Tools" with_tools)) = db with_tools.
Proof.
  refine (proj1 (add_category_duplicate with_tools "Tools" _ _) _).
  - repeat split.
  - simpl. repeat constructor. intros [].
  - reflexivity.
Defined.

(** ** AUTOINCREMENT and the counters *)

Lemma seq_of_set_seq_same table n s : seq_of table (set_seq table n s) = Some n.
Proof.
  unfold seq_of. induction s as [|[t v] s IH]; simpl.
  - rewrite String.eqb_refl. reflexivity.
  - destruct (String.eqb t table) eqn:E; simpl; rewrite E; [reflexivity | exact IH].
Qed.

Lemma seq_of_set_seq_other table table' n s :
  table <> table' -> seq_of table (set_seq table' n s) = seq_of table s.
Proof.
  intros Hne. unfold seq_of. induction s as [|[t v] s IH]; simpl.
  - destruct (String.eqb table' table) eqn:E; [|reflexivity].
    apply String.eqb_eq in E. congruence.
  - destruct (String.eqb t table') eqn:E; simpl.
    + apply String.eqb_eq in E. subst t.
      destruct (String.eqb table' table) eqn:E'; [|reflexivity].
      apply String.eqb_eq in E'. congruence.
    + destruct (String.eqb t table); [reflexivity | exact IH].
Qed.

Lemma find_app_none {A} (f : A -> bool) (l l' : list A) :
  find f l = None -> find f (l ++ l') = find f l'.
Proof.
  induction l as [|x l IH]; simpl; [reflexivity|].
  destruct (f x); [discriminate | exact IH].
Qed.

Lemma seq_of_reset_same table s : seq_of table (reset_sequence table s) = Some 0.
Proof.
  unfold seq_of, reset_sequence. rewrite find_app_none.
  - simpl. rewrite String.eqb_refl. reflexivity.
  - induction s as [|[t v] s IH]; simpl; [reflexivity|].
    destruct (String.eqb t table) eqn:E; simpl; [exact IH|].
    rewrite E. exact IH.
Qed.

Lemma seq_of_reset_other table table' s :
  table <> table' -> seq_of table (reset_sequence table' s) = seq_of table s.
Proof.
  intros Hne. unfold seq_of, reset_sequence.
  induction s as [|[t v] s IH]; simpl.
  - destruct (String.eqb table' table) eqn:E; [|reflexivity].
    apply String.eqb_eq in E. congruence.
  - destruct (String.eqb t table') eqn:E; simpl.
    + apply String.eqb_eq in E. subst t.
      destruct (String.eqb table' table) eqn:E'; [|exact IH].
      apply String.eqb_eq in E'. congruence.
    + destruct (String.eqb t table); [reflexivity | exact IH].
Qed.

Lemma max_rowid_nonneg ids : 0 <= max_rowid ids.
Proof. induction ids as [|i ids IH]; simpl; lia. Qed.

Lemma max_rowid_ge ids i : In i ids -> i <= max_rowid ids.
Proof.
  induction ids as [|j ids IH]; simpl; [intros []|].
  intros [->|H]; [lia|]. specialize (IH H). lia.
Qed.

Lemma next_rowid_above_ids table ids s i : In i ids -> i < next_rowid table ids s.
Proof. intros H. apply max_rowid_ge in H. unfold next_rowid. lia. Qed.

Lemma next_rowid_above_counter table ids s : counter table s < next_rowid table ids s.
Proof. unfold next_rowid. lia. Qed.

Lemma next_rowid_after_reset table s : next_rowid table [] (reset_sequence table s) = 1.
Proof. unfold next_rowid, counter. rewrite seq_of_reset_same. reflexivity. Qed.

Lemma filter_In_map {A} (f : A -> bool) (g : A -> Z) (l : list A) i :
  In i (map g (filter f l)) -> In i (map g l).
Proof.
  rewrite !in_map_iff. intros (x & E & H). apply filter_In in H. exists x. tauto.
Qed.

Lemma counter_set_seq_same table n s : counter table (set_seq table n s) = n.
Proof. unfold counter. rewrite seq_of_set_seq_same. reflexivity. Qed.

Lemma counter_set_seq_other table table' n s :
  table <> table' -> counter table (set_seq table' n s) = counter table s.
Proof. intros H. unfold counter. rewrite seq_of_set_seq_other by exact H. reflexivity. Qed.

Lemma counter_reset_other table table' s :
  table <> table' -> counter table (reset_sequence table' s) = counter table s.
Proof. intros H. unfold counter. rewrite seq_of_reset_other by exact H. reflexivity. Qed.

Lemma tables_differ : "Categories" <> "Products" /\ "Products" <> "Categories".
Proof. split; discriminate. Qed.

Lemma ids_valid_insert table ids s :
  ids_valid table ids s ->
  ids_valid table (ids ++ [next_rowid table ids s])
            (set_seq table (next_rowid table ids s) s).
Proof.
  intros H i Hin. rewrite counter_set_seq_same.
  apply in_app_or in Hin. destruct Hin as [Hin|[<-|[]]].
  - pose proof (next_rowid_above_ids table ids s i Hin). specialize (H i Hin). lia.
  - pose proof (max_rowid_nonneg ids). unfold next_rowid. lia.
Qed.

Lemma ids_valid_delete {A} table (g : A -> Z) (f : A -> bool) (rows : list A) s :
  ids_valid table (map g rows) s ->
  ids_valid table (map g (filter f rows))
            (if Z.of_nat (List.length (filter f rows)) =? 0
             then reset_sequence table s else s).
Proof.
  intros H i Hin.
  destruct (Z.of_nat (List.length (filter f rows)) =? 0) eqn:E.
  - apply Z.eqb_eq in E. destruct (filter f rows); [destruct Hin | simpl in E; lia].
  - apply H. apply (filter_In_map f g rows i Hin).
Qed.

Lemma ids_valid_other_reset table table' ids (b : bool) s :
  table <> table' ->
  ids_valid table ids s ->
  ids_valid table ids (if b then reset_sequence table' s else s).
Proof.
  intros Hne H i Hin. destruct b; [|apply H; exact Hin].
  rewrite counter_reset_other by exact Hne. apply H. exact Hin.
Qed.

Lemma ids_valid_other_insert table table' ids n s :
  table <> table' ->
  ids_valid table ids s -> ids_valid table ids (set_seq table' n s).
Proof.
  intros Hne H i Hin. rewrite counter_set_seq_other by exact Hne. apply H. exact Hin.
Qed.

(** The invariant holds on the new store and every mutator keeps it. *)
Lemma ids_in_range_initialised : ids_in_range (db initialised).
Proof. split; intros i []. Qed.

Lemma db_add_category_in_range name d :
  ids_in_range d -> ids_in_range (db_add_category name d).
Proof.
  intros [Hc Hp]. destruct tables_differ as [_ Hne].
  unfold ids_in_range, db_add_category, category_ids, product_ids. simpl. split.
  - rewrite map_app. simpl. apply ids_valid_insert. exact Hc.
  - apply ids_valid_other_insert; assumption.
Qed.

Lemma db_delete_category_in_range cid d :
  ids_in_range d -> ids_in_range (db_delete_category cid d).
Proof.
  intros [Hc Hp]. destruct tables_differ as [_ Hne].
  unfold ids_in_range, db_delete_category, category_ids, product_ids. simpl. split.
  - apply ids_valid_delete. exact Hc.
  - apply ids_valid_other_reset; assumption.
Qed.

Lemma db_add_product_in_range name price stock cid d :
  ids_in_range d -> ids_in_range (db_add_product name price stock cid d).
Proof.
  intros [Hc Hp]. destruct tables_differ as [Hne _].
  unfold ids_in_range, db_add_product, category_ids, product_ids. simpl. split.
  - apply ids_valid_other_insert; assumption.
  - rewrite map_app. simpl. apply ids_valid_insert. exact Hp.
Qed.

Lemma db_update_product_in_range pid name price stock cid d :
  ids_in_range d -> ids_in_range (db_update_product pid name price stock cid d).
Proof.
  intros [Hc Hp].
  unfold ids_in_range, db_update_product, category_ids, product_ids. simpl.
  split; [exact Hc|].
  rewrite map_map.
  replace (map _ (Products d)) with (map p_product_id (Products d)); [exact Hp|].
  apply map_ext. intros p. destruct (p_product_id p =? pid); reflexivity.
Qed.

Lemma db_delete_product_in_range pid d :
  ids_in_range d -> ids_in_range (db_delete_product pid d).
Proof.
  intros [Hc Hp]. destruct tables_differ as [Hne _].
  unfold ids_in_range, db_delete_product, category_ids, product_ids. simpl. split.
  - apply ids_valid_other_reset; assumption.
  - apply ids_valid_delete. exact Hp.
Qed.

Lemma mutators_keep_ids_in_range w :
  ready w -> ids_in_range (db w) ->
  (forall name, ids_in_range (db (snd (add_category name w)))) /\
  (forall cid, ids_in_range (db (snd (delete_category cid w)))) /\
  (forall name price stock cid,
      ids_in_range (db (snd (add_product name price stock cid w)))) /\
  (forall pid name price stock cid,
      ids_in_range (db (snd (update_product pid name price stock cid w)))) /\
  (forall pid, ids_in_range (db (snd (delete_product pid w)))).
Proof.
  intros Hr Hi. split; [|split; [|split; [|split]]]; intros.
  - rewrite (add_category_ready _ _ Hr). destruct (name_taken name (db w)); simpl;
      [exact Hi | apply db_add_category_in_range; exact Hi].
  - rewrite (delete_category_ready _ _ Hr).
    destruct (count_products_in_category cid (db w) >? 0); simpl;
      [exact Hi | apply db_delete_category_in_range; exact Hi].
  - rewrite (add_product_ready _ _ _ _ _ Hr). destruct (binds_null price); simpl;
      [exact Hi | apply db_add_product_in_range; exact Hi].
  - rewrite (update_product_ready _ _ _ _ _ _ Hr). destruct (_ && _); simpl;
      [exact Hi | apply db_update_product_in_range; exact Hi].
  - rewrite (delete_product_ready _ _ Hr). simpl.
    apply db_delete_product_in_range; exact Hi.
Qed.

Lemma delete_last_category_then_add w c name :
  ready w ->
  Categories (db w) = [c] ->
  count_products_in_category (c_category_id c) (db w) = 0 ->
  fst (delete_category (c_category_id c) w) = Return true /\
  Categories (db (snd (delete_category (c_category_id c) w))) = [] /\
  fst (add_category name (snd (delete_category (c_category_id c) w))) = Return true /\
  Categories (db (snd (add_category name (snd (delete_category (c_category_id c) w)))))
    = [mkCategory 1 name].
Proof.
  intros Hr Hc Hn.
  assert (Hd : db_delete_category (c_category_id c) (db w)
               = mkDatabase true [] (Products (db w))
                            (reset_sequence "Categories" (sqlite_sequence (db w)))).
  { unfold db_delete_category. rewrite Hc. simpl. rewrite Z.eqb_refl. reflexivity. }
  assert (E : delete_category (c_category_id c) w
              = (Return true,
                 settled w (mkDatabase true [] (Products (db w))
                              (reset_sequence "Categories" (sqlite_sequence (db w)))))).
  { rewrite (delete_category_ready _ _ Hr), Hn, <- Hd. reflexivity. }
  rewrite E. split; [reflexivity|]. split; [reflexivity|].
  rewrite add_category_ready by (apply ready_settled; reflexivity).
  simpl. unfold db_add_category. simpl. rewrite next_rowid_after_reset.
  split; reflexivity.
Qed.

Lemma delete_last_product_then_add w p name price stock cid :
  ready w ->
  Products (db w) = [p] ->
  binds_null price = false ->
  fst (delete_product (p_product_id p) w) = Return true /\
  Products (db (snd (delete_product (p_product_id p) w))) = [] /\
  fst (add_product name price stock cid (snd (delete_product (p_product_id p) w)))
    = Return true /\
  Products (db (snd (add_product name price stock cid
                       (snd (delete_product (p_product_id p) w)))))
    = [mkProduct 1 name price stock cid].
Proof.
  intros Hr Hp Hb.
  assert (Hd : db_delete_product (p_product_id p) (db w)
               = mkDatabase true (Categories (db w)) []
                            (reset_sequence "Products" (sqlite_sequence (db w)))).
  { unfold db_delete_product. rewrite Hp. simpl. rewrite Z.eqb_refl. reflexivity. }
  assert (E : delete_product (p_product_id p) w
              = (Return true,
                 settled w (mkDatabase true (Categories (db w)) []
                              (reset_sequence "Products" (sqlite_sequence (db w)))))).
  { rewrite (delete_product_ready _ _ Hr), <- Hd. reflexivity. }
  rewrite E. split; [reflexivity|]. split; [reflexivity|].
  rewrite add_product_ready by (apply ready_settled; reflexivity).
  rewrite Hb. simpl. unfold db_add_product. simpl. rewrite next_rowid_after_reset.
  split; reflexivity.
Qed.

Lemma delete_category_then_add_fresh_id w cid name :
  ready w ->
  ids_in_range (db w) ->
  count_products_in_category cid (db w) = 0 ->
  Categories (db (snd (delete_category cid w))) <> [] ->
  name_taken name (db (snd (delete_category cid w))) = false ->
  exists id,
    fst (add_category name (snd (delete_category cid w))) = Return true /\
    Categories (db (snd (add_category name (snd (delete_category cid w)))))
      = (Categories (db (snd (delete_category cid w))) ++ [mkCategory id name])%list /\
    1 < id /\
    forall c, In c (Categories (db w)) -> c_category_id c < id.
Proof.
  intros Hr [Hi _] Hn. rewrite (delete_category_ready _ _ Hr), Hn. simpl.
  set (d1 := db_delete_category cid (db w)). intros Hne Ht.
  change (Categories d1 <> []) in Hne. change (name_taken name d1 = false) in Ht.
  rewrite add_category_ready by (apply ready_settled; reflexivity).
  simpl. rewrite Ht. simpl.
  exists (next_rowid "Categories" (map c_category_id (Categories d1)) (sqlite_sequence d1)).
  split; [reflexivity|]. split; [reflexivity|].
  assert (Hs : sqlite_sequence d1 = sqlite_sequence (db w)).
  { unfold d1, db_delete_category in *. simpl in *.
    destruct (filter _ (Categories (db w))) as [|c' cs'] eqn:E; [congruence|].
    reflexivity. }
  rewrite Hs.
  assert (Hall : forall c, In c (Categories (db w)) ->
                 c_category_id c < next_rowid "Categories"
                   (map c_category_id (Categories d1)) (sqlite_sequence (db w))).
  { intros c Hc.
    pose proof (Hi (c_category_id c) (in_map c_category_id _ _ Hc)) as Hb.
    pose proof (next_rowid_above_counter "Categories"
                  (map c_category_id (Categories d1)) (sqlite_sequence (db w))).
    lia. }
  split; [|exact Hall].
  destruct (Categories d1) as [|c' cs'] eqn:E; [congruence|].
  assert (Hin : In c' (Categories (db w))).
  { unfold d1, db_delete_category in E. simpl in E.
    assert (H : In c' (c' :: cs')) by (left; reflexivity).
    rewrite <- E in H. apply filter_In in H. tauto. }
  pose proof (Hi (c_category_id c') (in_map c_category_id _ _ Hin)).
  specialize (Hall c' Hin). lia.
Qed.

Lemma delete_product_then_add_fresh_id w pid name price stock cid :
  ready w ->
  ids_in_range (db w) ->
  Products (db (snd (delete_product pid w))) <> [] ->
  binds_null price = false ->
  exists id,
    fst (add_product name price stock cid (snd (delete_product pid w))) = Return true /\
    Products (db (snd (add_product name price stock cid (snd (delete_product pid w)))))
      = (Products (db (snd (delete_product pid w)))
         ++ [mkProduct id name price stock cid])%list /\
    1 < id /\
    forall p, In p (Products (db w)) -> p_product_id p < id.
Proof.
  intros Hr [_ Hi]. rewrite (delete_product_ready _ _ Hr). simpl.
  set (d1 := db_delete_product pid (db w)). intros Hne Hb.
  change (Products d1 <> []) in Hne.
  rewrite add_product_ready by (apply ready_settled; reflexivity).
  rewrite Hb. simpl.
  exists (next_rowid "Products" (map p_product_id (Products d1)) (sqlite_sequence d1)).
  split; [reflexivity|]. split; [reflexivity|].
  assert (Hs : sqlite_sequence d1 = sqlite_sequence (db w)).
  { unfold d1, db_delete_product in *. simpl in *.
    destruct (filter _ (Products (db w))) as [|p' ps'] eqn:E; [congruence|].
    reflexivity. }
  rewrite Hs.
  assert (Hall : forall p, In p (Products (db w)) ->
                 p_product_id p < next_rowid "Products"
                   (map p_product_id (Products d1)) (sqlite_sequence (db w))).
  { intros p Hp.
    pose proof (Hi (p_product_id p) (in_map p_product_id _ _ Hp)) as Hb'.
    pose proof (next_rowid_above_counter "Products"
                  (map p_product_id (Products d1)) (sqlite_sequence (db w))).
    lia. }
  split; [|exact Hall].
  destruct (Products d1) as [|p' ps'] eqn:E; [congruence|].
  assert (Hin : In p' (Products (db w))).
  { unfold d1, db_delete_product in E. simpl in E.
    assert (H : In p' (p' :: ps')) by (left; reflexivity).
    rewrite <- E in H. apply filter_In in H. tauto. }
  pose proof (Hi (p_product_id p') (in_map p_product_id _ _ Hin)).
  specialize (Hall p' Hin). lia.
Qed.



(** ** The join with the categories *)

Lemma join_category_none cs p :
  existsb (fun c => c_category_id c =? p_category_id p) cs = false ->
  join_category cs p = [].
Proof.
  unfold join_category. induction cs as [|c cs IH]; simpl; [reflexivity|].
  intros H. apply orb_false_iff in H. destruct H as [Hc Hcs].
  rewrite Z.eqb_sym, Hc. apply IH. exact Hcs.
Qed.

Lemma join_category_unique cs p c :
  NoDup (map c_category_id cs) ->
  In c cs -> c_category_id c = p_category_id p ->
  join_category cs p = [row_of p c].
Proof.
  unfold join_category. induction cs as [|c' cs IH]; simpl; [intros _ []|].
  intros Hnd Hin Hid. inversion Hnd as [|? ? Hnotin Hnd']; subst.
  destruct Hin as [->|Hin].
  - assert (E1 : (p_category_id p =? c_category_id c) = true)
      by (apply Z.eqb_eq; symmetry; exact Hid).
    rewrite E1. simpl. f_equal.
    apply (join_category_none cs p).
    destruct (existsb _ cs) eqn:E; [|reflexivity]. exfalso. apply Hnotin.
    apply existsb_exists in E. destruct E as (c0 & Hc0 & E0).
    apply Z.eqb_eq in E0. rewrite Hid, <- E0. apply in_map. exact Hc0.
  - destruct (p_category_id p =? c_category_id c') eqn:E.
    + exfalso. apply Hnotin. apply Z.eqb_eq in E. rewrite <- E, <- Hid.
      apply in_map. exact Hin.
    + apply IH; assumption.
Qed.

Lemma category_exists_In cid d :
  category_exists cid d = true ->
  exists c, In c (Categories d) /\ c_category_id c = cid.
Proof.
  unfold category_exists. intros H. apply existsb_exists in H.
  destruct H as (c & Hc & E). apply Z.eqb_eq in E. eauto.
Qed.

Lemma product_of_row_of p c : product_of_row (row_of p c) = p.
Proof. destruct p. reflexivity. Qed.

(** With every category in place the join keeps every selected product,
    once. *)
Lemma joined_products where_ d :
  NoDup (category_ids d) -> no_orphans d ->
  map product_of_row (joined where_ d) = filter where_ (Products d).
Proof.
  unfold joined, no_orphans, category_ids. intros Hnd Hno.
  induction (Products d) as [|p ps IH]; simpl; [reflexivity|].
  assert (IH' : map product_of_row
                  (flat_map (join_category (Categories d)) (filter where_ ps))
                = filter where_ ps).
  { apply IH. intros q Hq. apply Hno. right. exact Hq. }
  destruct (where_ p); [|exact IH'].
  simpl. rewrite map_app, IH'.
  destruct (category_exists_In _ _ (Hno p (or_introl eq_refl))) as (c & Hc & Hid).
  rewrite (join_category_unique _ p c Hnd Hc Hid). simpl.
  rewrite product_of_row_of. reflexivity.
Qed.

(** Each joined row carries the name of the category its product refers
    to. *)
Lemma joined_category_name where_ d r :
  In r (joined where_ d) ->
  exists p c,
    In p (Products d) /\ where_ p = true /\
    In c (Categories d) /\ c_category_id c = p_category_id p /\
    r = row_of p c.
Proof.
  unfold joined. intros H. apply in_flat_map in H. destruct H as (p & Hp & Hr).
  apply filter_In in Hp. destruct Hp as [Hp Hw].
  unfold join_category in Hr. apply in_map_iff in Hr. destruct Hr as (c & <- & Hc).
  apply filter_In in Hc. destruct Hc as [Hc E]. apply Z.eqb_eq in E.
  exists p, c. repeat split; auto.
Qed.

(** What the claim C6 says of [get_products_by_category], proved for the
    stores in which every product's category exists: the listing is in
    ascending order of the product name, consists of exactly the selected
    products (all of them when no ids are given, those whose category is
    among the ids otherwise), and each row carries its category's name. *)
Lemma get_products_by_category_without_orphans w ids :
  ready w ->
  NoDup (category_ids (db w)) ->
  no_orphans (db w) ->
  exists rows,
    fst (get_products_by_category None ids w) = Return rows /\
    Sorted (fun a b => String.leb (r_name a) (r_name b) = true) rows /\
    Permutation (map product_of_row rows)
                (if truthy_list ids
                 then filter (category_in (the_list ids)) (Products (db w))
                 else Products (db w)) /\
    forall r, In r rows ->
      exists c, In c (Categories (db w)) /\
                c_category_id c = r_category_id r /\ r_category_name r = c_name c.
Proof.
  intros Hr Hnd Hno. rewrite (get_products_by_category_ready _ _ _ Hr). simpl.
  eexists. split; [reflexivity|]. unfold select_products. split; [|split].
  - apply (order_by_sorted (fun a b => String.leb (r_name a) (r_name b))).
    intros a b. apply String.leb_total.
  - eapply Permutation_trans.
    + apply Permutation_map. apply order_by_perm.
    + rewrite (joined_products _ _ Hnd Hno). unfold where_clause.
      destruct ids as [[|i ids]|]; simpl.
      * clear. induction (Products (db w)) as [|p ps IH]; simpl; [constructor|].
        apply perm_skip. exact IH.
      * apply Permutation_refl.
      * clear. induction (Products (db w)) as [|p ps IH]; simpl; [constructor|].
        apply perm_skip. exact IH.
  - intros r Hin.
    apply (Permutation_in _ (order_by_perm _ _)) in Hin.
    apply joined_category_name in Hin.
    destruct Hin as (p & c & _ & _ & Hc & Hid & ->).
    exists c. repeat split; auto.
Qed.

(** C6 -- [get_products_by_category] does NOT list every product.  After
    [add_product("Widget", 10.0, 5, 42)] has stored a product under a
    category that does not exist, the product is in the table but in no
    listing: not in the listing without ids, which the claim says holds all
    products, and not in the listing for the ids [42], which the claim says
    holds exactly the products whose [category_id] is among the ids.  The
    inner JOIN with [Categories] drops it. *)
Theorem orphaned_product_is_never_listed :
  Products (db with_orphan) = [mkProduct 1 "Widget" ten 5 42] /\
  fst (get_products_by_category None None with_orphan) = Return [] /\
  fst (get_products_by_category None (Some []) with_orphan) = Return [] /\
  fst (get_products_by_category None (Some [42]) with_orphan) = Return [] /\
  filter (category_in [42]) (Products (db with_orphan))
    = [mkProduct 1 "Widget" ten 5 42].
Proof. repeat split. Qed.

(** ** Update, then read back *)

Lemma filter_after_update (pid : Z) (h : Product -> Product) (ps : list Product) p :
  (forall q, p_product_id (h q) = p_product_id q) ->
  NoDup (map p_product_id ps) ->
  In p ps -> p_product_id p = pid ->
  filter (fun q => p_product_id q =? pid)
         (map (fun q => if p_product_id q =? pid then h q else q) ps)
  = [h p].
Proof.
  intros Hh. induction ps as [|q ps IH]; simpl; [intros _ []|].
  intros Hnd Hin Hid. inversion Hnd as [|? ? Hnotin Hnd']; subst.
  assert (Hrest : ~ In (p_product_id p) (map p_product_id ps) ->
                  filter (fun q0 => p_product_id q0 =? p_product_id p)
                    (map (fun q0 => if p_product_id q0 =? p_product_id p
                                    then h q0 else q0) ps) = []).
  { clear. intros Hn. induction ps as [|q0 ps IH]; simpl; [reflexivity|].
    simpl in Hn.
    destruct (p_product_id q0 =? p_product_id p) eqn:E.
    - apply Z.eqb_eq in E. exfalso. apply Hn. left. exact E.
    - rewrite E. apply IH. intros H. apply Hn. right. exact H. }
  destruct Hin as [->|Hin].
  - rewrite Z.eqb_refl, Hh, Z.eqb_refl. f_equal. apply Hrest. exact Hnotin.
  - destruct (p_product_id q =? p_product_id p) eqn:E.
    + exfalso. apply Z.eqb_eq in E. apply Hnotin. rewrite E.
      apply in_map. exact Hin.
    + rewrite E. apply IH; auto.
Qed.

Lemma In_after_update (pid : Z) (h : Product -> Product) (ps : list Product) q :
  (forall q, p_product_id (h q) = p_product_id q) ->
  p_product_id q <> pid ->
  (In q (map (fun q => if p_product_id q =? pid then h q else q) ps) <-> In q ps).
Proof.
  intros Hh Hne. rewrite in_map_iff. split.
  - intros (x & E & Hx). destruct (p_product_id x =? pid) eqn:Ex.
    + apply Z.eqb_eq in Ex. subst q. rewrite Hh in Hne. contradiction.
    + subst x. exact Hx.
  - intros Hq. exists q. split; [|exact Hq].
    destruct (p_product_id q =? pid) eqn:Ex; [|reflexivity].
    apply Z.eqb_eq in Ex. contradiction.
Qed.

(** What the claim C8 says of [update_product], proved when the new
    [category_id] is the id of a category: the product read back has
    exactly the new values, and the rows of the other products are the
    same as before. *)
Lemma update_product_then_get w pid name price stock c :
  ready w ->
  NoDup (product_ids (db w)) ->
  NoDup (category_ids (db w)) ->
  In pid (product_ids (db w)) ->
  In c (Categories (db w)) ->
  fst (update_product pid name price stock (c_category_id c) w) = Return true ->
  fst (get_product_by_id pid (snd (update_product pid name price stock (c_category_id c) w)))
    = Return (Some (mkProductRow pid name price stock (c_category_id c) (c_name c))) /\
  forall q, p_product_id q <> pid ->
    (In q (Products (db (snd (update_product pid name price stock (c_category_id c) w))))
     <-> In q (Products (db w))).
Proof.
  intros Hr Hndp Hndc Hin Hc Hok.
  assert (E : update_product pid name price stock (c_category_id c) w
              = (Return true,
                 settled w (db_update_product pid name price stock (c_category_id c)
                                              (db w)))).
  { rewrite (update_product_ready _ _ _ _ _ _ Hr) in Hok |- *.
    destruct (existsb _ _ && binds_null price); [discriminate Hok | reflexivity]. }
  rewrite E. cbn [snd]. rewrite db_settled. split.
  - rewrite get_product_by_id_ready by (apply ready_settled; reflexivity).
    cbn [fst]. rewrite db_settled. f_equal.
    unfold select_product_by_id, joined, db_update_product. cbn [Products Categories].
    unfold product_ids in Hin. apply in_map_iff in Hin. destruct Hin as (p & Hid & Hp).
    rewrite (filter_after_update pid
               (fun q => mkProduct (p_product_id q) name price stock (c_category_id c))
               (Products (db w)) p (fun q => eq_refl) Hndp Hp Hid).
    cbn [flat_map]. rewrite app_nil_r.
    rewrite (join_category_unique (Categories (db w))
               (mkProduct (p_product_id p) name price stock (c_category_id c))
               c Hndc Hc eq_refl).
    unfold row_of. cbn. rewrite Hid. reflexivity.
  - intros q Hne. unfold db_update_product. cbn [Products].
    apply (In_after_update pid
             (fun q => mkProduct (p_product_id q) name price stock (c_category_id c))
             (Products (db w)) q (fun q => eq_refl) Hne).
Qed.

(** C8 -- the product read back after a successful update is NOT always
    the updated one.  On the store with the category 1 and the product 1,
    [update_product(1, "Hammer", 10.0, 2, 42)] returns [True] although no
    category 42 exists, and [get_product_by_id(1)] then returns [None]
    while the row is in the table, with the new values. *)
Theorem update_to_unknown_category_hides_product :
  fst (get_product_by_id 1 with_hammer)
    = Return (Some (mkProductRow 1 "Hammer" ten 2 1 "Tools")) /\
  category_exists 42 (db with_hammer) = false /\
  fst (update_product 1 "Hammer" ten 2 42 with_hammer) = Return true /\
  Products (db (snd (update_product 1 "Hammer" ten 2 42 with_hammer)))
    = [mkProduct 1 "Hammer" ten 2 42] /\
  fst (get_product_by_id 1 (snd (update_product 1 "Hammer" ten 2 42 with_hammer)))
    = Return None.
Proof. repeat split. Qed.

(** ** The report *)

Lemma get_category_report_ready N w category_id category_ids :
  ready w ->
  get_category_report N category_id category_ids w =
  (Return
     (let result := select_report N (where_clause category_id category_ids) (db w) in
      mkReport
        (match fst (fst result) with Some x => py_round N x 2 | None => S754_zero false end)
        (match snd (fst result) with Some n => n | None => 0 end)
        (match snd result with Some x => x | None => S754_zero false end)),
   settled w (db w)).
Proof.
  intros Hr. rewrite get_category_report_where.
  revert Hr. on_ready w. unfold settled. unfold_py. cbn.
  rewrite Nat.eqb_refl. reflexivity.
Qed.

(** The part of the report that is not floating-point arithmetic:
    [total_stock] is the sum of the stocks of the selected products, and
    when nothing is selected the report is 0.0, 0, 0.0.  The values of
    [avg_price] and [total_value] on a non-empty selection are binary64
    results of SQLite's AVG, SUM and ROUND and of Python's [round]. *)
Lemma get_category_report_integer_part N w category_id category_ids :
  ready w ->
  exists report,
    fst (get_category_report N category_id category_ids w) = Return report /\
    total_stock report
      = sum_stock (filter (where_clause category_id category_ids) (Products (db w))) /\
    (filter (where_clause category_id category_ids) (Products (db w)) = [] ->
     report = mkReport (S754_zero false) 0 (S754_zero false)) /\
    (filter (where_clause category_id category_ids) (Products (db w)) <> [] ->
     avg_price report
       = py_round N
           (sql_round N
              (sql_avg N (map p_price
                            (filter (where_clause category_id category_ids)
                                    (Products (db w))))) 2) 2).
Proof.
  intros Hr. rewrite (get_category_report_ready _ _ _ _ Hr). cbn [fst].
  eexists. split; [reflexivity|]. unfold select_report.
  destruct (filter _ (Products (db w))) as [|p ps]; cbn.
  - repeat split. congruence.
  - repeat split. discriminate.
Qed.

(** * Further properties of [db.py] *)

(** ** Rules for specifications *)

Lemma spec_weaken {A} (P P' : World -> Prop) (m : M A) (Q Q' : outcome A -> World -> Prop) :
  spec P' m Q' -> (forall w, P w -> P' w) -> (forall o w, Q' o w -> Q o w) ->
  spec P m Q.
Proof. intros H HP HQ w Hw. apply HQ, H, HP, Hw. Qed.

Lemma spec_ret {A} (P : World -> Prop) (a : A) (Q : outcome A -> World -> Prop) :
  (forall w, P w -> Q (Return a) w) -> spec P (ret a) Q.
Proof. intros H w Hw. apply H, Hw. Qed.

Lemma spec_bind {A B} (P : World -> Prop) (m : M A) (k : A -> M B)
    (R : outcome A -> World -> Prop) (Q : outcome B -> World -> Prop) :
  spec P m R ->
  (forall a, spec (R (Return a)) (k a) Q) ->
  (forall e w, R (Raise e) w -> Q (Raise e) w) ->
  spec P (bind m k) Q.
Proof.
  intros Hm Hk He w Hw. unfold bind. specialize (Hm w Hw).
  destruct (m w) as [[a|e] w']; simpl in *.
  - apply Hk, Hm.
  - apply He, Hm.
Qed.

Lemma spec_try_except {A} (P : World -> Prop) (m : M A) (h : exn -> M A)
    (R Q : outcome A -> World -> Prop) :
  spec P m R ->
  (forall a w, R (Return a) w -> Q (Return a) w) ->
  (forall e, spec (R (Raise e)) (h e) Q) ->
  spec P (try_except m h) Q.
Proof.
  intros Hm Hr Hh w Hw. unfold try_except. specialize (Hm w Hw).
  destruct (m w) as [[a|e] w']; simpl in *.
  - apply Hr, Hm.
  - apply Hh, Hm.
Qed.

(** A prefix that keeps [P] whether it returns or raises. *)
Lemma spec_seq {A B} (P : World -> Prop) (m : M A) (k : A -> M B)
    (Q : outcome B -> World -> Prop) :
  spec P m (fun _ w => P w) ->
  (forall a, spec P (k a) Q) ->
  (forall e w, P w -> Q (Raise e) w) ->
  spec P (bind m k) Q.
Proof.
  intros Hm Hk He. apply (spec_bind P m k (fun _ w => P w) Q); assumption.
Qed.

(** ** The store calls and the transaction state *)

Lemma store_call_frame w :
  db (snd (store_call w)) = db w /\ txn (snd (store_call w)) = txn w.
Proof. unfold store_call. destruct (faults w) as [|[] fs]; split; reflexivity. Qed.

Lemma spec_get_connection P :
  (forall w d t, P w -> db w = d -> txn w = t -> forall w', db w' = d -> txn w' = t -> P w') ->
  spec P get_connection (fun _ w => P w).
Proof.
  intros Hframe w Hw. apply (Hframe w (db w) (txn w) Hw eq_refl eq_refl).
  - apply get_connection_db.
  - destruct w as [d t oc nc fs]. unfold get_connection. unfold_py. cbn.
    destruct fs as [|[] [|[] fs]]; reflexivity.
Qed.

Lemma idle_frame s w w' : idle s w -> db w' = db w -> txn w' = txn w -> idle s w'.
Proof. unfold idle. intros [Ht Hd] Ed Et. split; congruence. Qed.

Lemma spec_get_connection_idle s : spec (idle s) get_connection (fun _ w => idle s w).
Proof.
  apply spec_get_connection. intros w d t Hi Hd Ht w' Hd' Ht'.
  apply (idle_frame s w w' Hi); congruence.
Qed.

Lemma spec_begin_transaction conn s :
  spec (idle s) (begin_transaction conn)
       (fun o w => match o with
                   | Return _ => in_txn (conn_id conn) s w
                   | Raise _ => idle s w
                   end).
Proof.
  intros [d t oc nc fs] [Ht Hd]. simpl in *. subst.
  unfold begin_transaction, in_txn, idle. unfold_py. cbn.
  destruct fs as [|[] fs]; cbn; auto.
Qed.

Lemma spec_execute_in_txn {A} conn c s (stmt : Database -> outcome (A * Database)) :
  spec (in_txn c s) (execute conn stmt) (fun _ w => in_txn c s w).
Proof.
  intros [d t oc nc fs] Ht. unfold in_txn in *. simpl in *. subst.
  unfold execute. unfold_py. cbn.
  destruct fs as [|[] fs]; cbn; try reflexivity;
    (destruct (has_tables d); [destruct (stmt d) as [[a d']|e]|]; reflexivity).
Qed.

Lemma spec_execute_idle {A} conn s (stmt : Database -> outcome (A * Database)) :
  spec (idle s) (execute conn stmt)
       (fun o w => match o with
                   | Return _ => txn w = None
                   | Raise _ => idle s w
                   end).
Proof.
  intros [d t oc nc fs] [Ht Hd]. simpl in *. subst.
  unfold execute, idle. unfold_py. cbn.
  destruct fs as [|[] fs]; cbn; auto;
    (destruct (has_tables s); [destruct (stmt s) as [[a d']|e]|]; cbn; auto).
Qed.

Lemma spec_execute_query_idle {A} conn s (f : Database -> A) :
  spec (idle s) (execute conn (query f)) (fun _ w => idle s w).
Proof.
  intros [d t oc nc fs] [Ht Hd]. simpl in *. subst.
  unfold execute, query, idle. unfold_py. cbn.
  destruct fs as [|[] fs]; cbn; auto; (destruct (has_tables s); cbn; auto).
Qed.

Lemma commit_no_txn conn w : txn w = None -> commit conn w = (Return tt, w).
Proof. intros H. unfold commit. rewrite H. reflexivity. Qed.

Lemma rollback_no_txn conn w : txn w = None -> rollback conn w = (Return tt, w).
Proof. intros H. unfold rollback. rewrite H. reflexivity. Qed.

Lemma close_no_txn conn w :
  txn w = None ->
  fst (close conn w) = Return tt /\
  db (snd (close conn w)) = db w /\ txn (snd (close conn w)) = None.
Proof.
  intros H. unfold close, bind. rewrite (rollback_no_txn _ _ H). simpl. auto.
Qed.

Lemma close_in_txn conn s w :
  in_txn (conn_id conn) s w ->
  fst (close conn w) = Return tt /\ idle s (snd (close conn w)).
Proof.
  unfold in_txn. intros H. unfold close, bind, rollback, idle. rewrite H.
  rewrite Nat.eqb_refl. simpl. auto.
Qed.

Lemma spec_commit_in_txn conn s :
  spec (in_txn (conn_id conn) s) (commit conn)
       (fun o w => match o with
                   | Return _ => txn w = None
                   | Raise _ => in_txn (conn_id conn) s w
                   end).
Proof.
  intros [d t oc nc fs] Ht. unfold in_txn in *. simpl in *. subst.
  unfold commit. unfold_py. cbn. rewrite Nat.eqb_refl.
  destruct fs as [|[] fs]; cbn; reflexivity.
Qed.

(** ** The guarded functions: all or nothing *)

Lemma spec_close_ret conn c s :
  spec (fun w => txn w = None) (close conn ;; ret true) (guarded_body c s).
Proof.
  intros w Hw. unfold bind. destruct (close_no_txn conn w Hw) as (Hf & _ & Ht).
  destruct (close conn w) as [[u|e] w']; simpl in *; [|discriminate].
  split; [exact Ht | discriminate].
Qed.

Lemma spec_commit_close_ret conn s :
  spec (in_txn (conn_id conn) s) (commit conn ;; close conn ;; ret true)
       (guarded_body (conn_id conn) s).
Proof.
  eapply spec_bind.
  - apply spec_commit_in_txn.
  - intros u. apply spec_close_ret.
  - intros e w H. left. exact H.
Qed.

Lemma spec_rollback_close_ret conn s :
  spec (fun w => in_txn (conn_id conn) s w \/ idle s w)
       (rollback conn ;; close conn ;; ret false)
       (fun o w => o = Return false /\ idle s w).
Proof.
  intros w Hw. unfold bind.
  assert (Hr : exists w1, rollback conn w = (Return tt, w1) /\ idle s w1).
  { destruct Hw as [Hw|Hw].
    - unfold in_txn in Hw. unfold rollback. rewrite Hw, Nat.eqb_refl.
      eexists. split; [reflexivity|]. split; reflexivity.
    - rewrite (rollback_no_txn _ _ (proj1 Hw)). eauto. }
  destruct Hr as (w1 & -> & Hi).
  destruct (close_no_txn conn w1 (proj1 Hi)) as (Hf & Hd & Ht).
  destruct (close conn w1) as [[u|e] w2]; simpl in *; [|discriminate].
  split; [reflexivity|]. split; [exact Ht|]. rewrite Hd. apply Hi.
Qed.

Lemma spec_close_ret_false conn s :
  spec (fun w => in_txn (conn_id conn) s w \/ idle s w)
       (close conn ;; ret false)
       (fun o w => o = Return false /\ idle s w).
Proof.
  intros w Hw. unfold bind. destruct Hw as [Hw|Hw].
  - destruct (close_in_txn conn s w Hw) as (Hf & Hi).
    destruct (close conn w) as [[u|e] w']; simpl in *; [|discriminate]. auto.
  - destruct (close_no_txn conn w (proj1 Hw)) as (Hf & Hd & Ht).
    destruct (close conn w) as [[u|e] w']; simpl in *; [|discriminate].
    split; [reflexivity|]. split; [exact Ht|]. rewrite Hd. apply Hw.
Qed.

Lemma bind_assoc {A B C} (m : M A) (k : A -> M B) (r : B -> M C) w :
  bind (bind m k) r w = bind m (fun a => bind (k a) r) w.
Proof. unfold bind. destruct (m w) as [[a|e] w']; reflexivity. Qed.

(** The handler [if conn: conn.rollback(); conn.close()] / [return False]. *)
Lemma spec_handler_rollback_close conn s :
  spec (fun w => in_txn (conn_id conn) s w \/ idle s w)
       ((rollback conn ;; close conn) ;; ret false)
       (fun o w => o = Return false /\ idle s w).
Proof.
  intros w Hw. rewrite bind_assoc. apply (spec_rollback_close_ret conn s w Hw).
Qed.

(** The shape shared by the guarded functions. *)
Lemma try_with_connection_all_or_nothing (body : Connection -> M bool)
    (h : option Connection -> exn -> M bool) :
  (forall conn s, spec (idle s) (body conn) (guarded_body (conn_id conn) s)) ->
  (forall conn e s,
      spec (fun w => in_txn (conn_id conn) s w \/ idle s w) (h (Some conn) e)
           (fun o w => o = Return false /\ idle s w)) ->
  (forall e s, spec (idle s) (h None e) (fun o w => o = Return false /\ idle s w)) ->
  all_or_nothing (try_with_connection body h).
Proof.
  intros Hbody Hsome Hnone w Ht. unfold try_with_connection.
  pose proof (spec_get_connection_idle (db w) w (conj Ht eq_refl)) as Hg.
  destruct (get_connection w) as [[conn|e] w1]; simpl in Hg.
  - unfold try_except. pose proof (Hbody conn (db w) w1 Hg) as Hb.
    destruct (body conn w1) as [[b|e] w2]; simpl in Hb.
    + exists b. simpl. tauto.
    + pose proof (Hsome conn e (db w) w2 Hb) as Hh.
      destruct (h (Some conn) e w2) as [o w3]; simpl in *.
      destruct Hh as (-> & Hi3 & Hd3). exists false. auto.
  - pose proof (Hnone e (db w) w1 Hg) as Hh.
    destruct (h None e w1) as [o w2]; simpl in *.
    destruct Hh as (-> & Hi2 & Hd2). exists false. auto.
Qed.

Lemma spec_ret_false_idle s :
  spec (idle s) (ret tt ;; ret false) (fun o w => o = Return false /\ idle s w).
Proof. intros w Hw. split; [reflexivity | exact Hw]. Qed.

Lemma delete_category_all_or_nothing cid : all_or_nothing (delete_category cid).
Proof.
  apply try_with_connection_all_or_nothing.
  - intros conn s. eapply spec_bind.
    + apply spec_begin_transaction.
    + intros u. apply spec_seq.
      * apply spec_execute_in_txn.
      * intros n. destruct (n >? 0).
        -- eapply spec_weaken.
           ++ apply (spec_rollback_close_ret conn s).
           ++ intros w H. left. exact H.
           ++ intros o w [-> [Ht Hd]]. split; auto.
        -- apply spec_seq; [apply spec_execute_in_txn| |intros e w H; left; exact H].
           intros u1.
           apply spec_seq; [apply spec_execute_in_txn| |intros e w H; left; exact H].
           intros m. apply spec_seq; [| |intros e w H; left; exact H].
           ++ destruct (m =? 0).
              ** apply spec_seq; [apply spec_execute_in_txn| |intros e w H; exact H].
                 intros u2. apply spec_execute_in_txn.
              ** intros w H. exact H.
           ++ intros u3. apply spec_commit_close_ret.
      * intros e w H. left. exact H.
    + intros e w H. right. exact H.
  - intros conn e s. apply spec_handler_rollback_close.
  - intros e s. apply spec_ret_false_idle.
Qed.

Lemma spec_handler_close conn s :
  spec (fun w => in_txn (conn_id conn) s w \/ idle s w)
       (close conn ;; ret false)
       (fun o w => o = Return false /\ idle s w).
Proof. apply spec_close_ret_false. Qed.

Lemma add_product_all_or_nothing name price stock cid :
  all_or_nothing (add_product name price stock cid).
Proof.
  apply try_with_connection_all_or_nothing.
  - intros conn s. eapply spec_bind.
    + apply spec_execute_idle.
    + intros u w Hw.
      assert (E : (commit conn ;; close conn ;; ret true) w
                  = (close conn ;; ret true) w).
      { unfold bind at 1. rewrite (commit_no_txn _ _ Hw). reflexivity. }
      cbv beta. rewrite E.
      apply (spec_close_ret conn (conn_id conn) s w Hw).
    + intros e w H. right. exact H.
  - intros conn e s. apply spec_handler_close.
  - intros e s. apply spec_ret_false_idle.
Qed.

Lemma update_product_all_or_nothing pid name price stock cid :
  all_or_nothing (update_product pid name price stock cid).
Proof.
  apply try_with_connection_all_or_nothing.
  - intros conn s. eapply spec_bind.
    + apply spec_begin_transaction.
    + intros u. apply spec_seq.
      * apply spec_execute_in_txn.
      * intros u1. apply spec_commit_close_ret.
      * intros e w H. left. exact H.
    + intros e w H. right. exact H.
  - intros conn e s. apply spec_handler_rollback_close.
  - intros e s. apply spec_ret_false_idle.
Qed.

Lemma delete_product_all_or_nothing pid : all_or_nothing (delete_product pid).
Proof.
  apply try_with_connection_all_or_nothing.
  - intros conn s. eapply spec_bind.
    + apply spec_begin_transaction.
    + intros u.
      apply spec_seq; [apply spec_execute_in_txn| |intros e w H; left; exact H].
      intros u1.
      apply spec_seq; [apply spec_execute_in_txn| |intros e w H; left; exact H].
      intros m. apply spec_seq; [| |intros e w H; left; exact H].
      * destruct (m =? 0).
        -- apply spec_seq; [apply spec_execute_in_txn| |intros e w H; exact H].
           intros u2. apply spec_execute_in_txn.
        -- intros w H. exact H.
      * intros u3. apply spec_commit_close_ret.
    + intros e w H. right. exact H.
  - intros conn e s. apply spec_handler_rollback_close.
  - intros e s. apply spec_ret_false_idle.
Qed.

(** X1 -- [delete_category], [add_product], [update_product] and
    [delete_product] never raise: called when no transaction is open, each
    returns a boolean whatever the store does (any fault at any call, tables
    missing), leaves no transaction open, and when it returns [False] the
    database is exactly as it was before the call. *)
Theorem guarded_functions_all_or_nothing (w : World) :
  txn w = None ->
  (forall cid,
      exists b, fst (delete_category cid w) = Return b /\
                txn (snd (delete_category cid w)) = None /\
                (b = false -> db (snd (delete_category cid w)) = db w)) /\
  (forall name price stock cid,
      exists b, fst (add_product name price stock cid w) = Return b /\
                txn (snd (add_product name price stock cid w)) = None /\
                (b = false -> db (snd (add_product name price stock cid w)) = db w)) /\
  (forall pid name price stock cid,
      exists b, fst (update_product pid name price stock cid w) = Return b /\
                txn (snd (update_product pid name price stock cid w)) = None /\
                (b = false ->
                 db (snd (update_product pid name price stock cid w)) = db w)) /\
  (forall pid,
      exists b, fst (delete_product pid w) = Return b /\
                txn (snd (delete_product pid w)) = None /\
                (b = false -> db (snd (delete_product pid w)) = db w)).
Proof.
  intros Ht. split; [|split; [|split]]; intros.
  - apply delete_category_all_or_nothing. exact Ht.
  - apply add_product_all_or_nothing. exact Ht.
  - apply update_product_all_or_nothing. exact Ht.
  - apply delete_product_all_or_nothing. exact Ht.
Qed.

(** The witness: the store fails when the second statement of the
    transaction runs; [delete_product] has then deleted the row, and the
    rollback brings it back. *)
Lemma guarded_functions_all_or_nothing_witness :
  exists b,
    fst (delete_product 1 (set_faults with_hammer [false; false; false; false; true]))
      = Return b /\
    txn (snd (delete_product 1
                (set_faults with_hammer [false; false; false; false; true]))) = None /\
    (b = false ->
     db (snd (delete_product 1
                (set_faults with_hammer [false; false; false; false; true])))
     = db (set_faults with_hammer [false; false; false; false; true])).
Proof.
  apply (guarded_functions_all_or_nothing
           (set_faults with_hammer [false; false; false; false; true])).
  reflexivity.
Defined.

(** ** The read functions *)

Lemma spec_close_idle conn s : spec (idle s) (close conn) (fun _ w => idle s w).
Proof.
  intros w [Ht Hd]. destruct (close_no_txn conn w Ht) as (_ & Hd' & Ht').
  split; congruence.
Qed.

Lemma spec_reader {A B} s (stmt : Connection -> M A) (f : A -> B) :
  (forall conn, spec (idle s) (stmt conn) (fun _ w => idle s w)) ->
  spec (idle s)
       (conn <- get_connection ;; r <- stmt conn ;; close conn ;; ret (f r))
       (fun _ w => idle s w).
Proof.
  intros Hs.
  apply spec_seq; [apply spec_get_connection_idle| |auto].
  intros conn. apply spec_seq; [apply Hs| |auto].
  intros r. apply spec_seq; [apply spec_close_idle| |auto].
  intros u. apply spec_ret. auto.
Qed.

Lemma read_only_of_spec {A} (m : M A) :
  (forall s, spec (idle s) m (fun _ w => idle s w)) -> read_only m.
Proof.
  intros H w Ht. destruct (H (db w) w (conj Ht eq_refl)) as [Ht' Hd']. auto.
Qed.

Lemma get_all_categories_read_only : read_only get_all_categories.
Proof.
  apply read_only_of_spec. intros s.
  apply (spec_reader s (fun conn => execute conn (query select_categories))).
  intros conn. apply spec_execute_query_idle.
Qed.

Lemma get_all_products_read_only : read_only get_all_products.
Proof.
  apply read_only_of_spec. intros s.
  apply (spec_reader s (fun conn => execute conn (query (select_products no_filter)))
                     (fun r => r)).
  intros conn. apply spec_execute_query_idle.
Qed.

Lemma get_products_by_category_read_only cid ids :
  read_only (get_products_by_category cid ids).
Proof.
  apply read_only_of_spec. intros s. unfold get_products_by_category.
  apply (spec_reader s
           (fun conn =>
              if truthy_list ids && (0 <? Z.of_nat (List.length (the_list ids)))
              then execute conn (query (select_products (category_in (the_list ids))))
              else if truthy_int cid
              then execute conn (query (select_products (category_is (the_int cid))))
              else execute conn (query (select_products no_filter)))
           (fun r => r)).
  intros conn.
  destruct (truthy_list ids && _); [|destruct (truthy_int cid)];
    apply spec_execute_query_idle.
Qed.

Lemma get_product_by_id_read_only pid : read_only (get_product_by_id pid).
Proof.
  apply read_only_of_spec. intros s.
  apply (spec_reader s (fun conn => execute conn (query (select_product_by_id pid)))
                     (fun r => r)).
  intros conn. apply spec_execute_query_idle.
Qed.

Lemma get_category_report_read_only N cid ids :
  read_only (get_category_report N cid ids).
Proof.
  apply read_only_of_spec. intros s. intros w Hw.
  rewrite get_category_report_where.
  revert w Hw.
  apply (spec_reader s
           (fun conn => execute conn (query (select_report N (where_clause cid ids))))
           (fun result =>
              mkReport
                (match fst (fst result) with
                 | Some x => py_round N x 2 | None => S754_zero false end)
                (match snd (fst result) with Some n => n | None => 0 end)
                (match snd result with Some x => x | None => S754_zero false end))).
  intros conn. apply spec_execute_query_idle.
Qed.

(** X2 -- the five read functions change nothing: called when no
    transaction is open, [get_all_categories], [get_all_products],
    [get_products_by_category], [get_product_by_id] and
    [get_category_report] leave the database as it was and open no
    transaction, whether they return or raise. *)
Theorem read_functions_change_nothing (N : Numerics) (w : World) :
  txn w = None ->
  (db (snd (get_all_categories w)) = db w /\ txn (snd (get_all_categories w)) = None) /\
  (db (snd (get_all_products w)) = db w /\ txn (snd (get_all_products w)) = None) /\
  (forall cid ids,
      db (snd (get_products_by_category cid ids w)) = db w /\
      txn (snd (get_products_by_category cid ids w)) = None) /\
  (forall pid,
      db (snd (get_product_by_id pid w)) = db w /\
      txn (snd (get_product_by_id pid w)) = None) /\
  (forall cid ids,
      db (snd (get_category_report N cid ids w)) = db w /\
      txn (snd (get_category_report N cid ids w)) = None).
Proof.
  intros Ht. split; [|split; [|split; [|split]]]; intros.
  - apply get_all_categories_read_only. exact Ht.
  - apply get_all_products_read_only. exact Ht.
  - apply get_products_by_category_read_only. exact Ht.
  - apply get_product_by_id_read_only. exact Ht.
  - apply get_category_report_read_only. exact Ht.
Qed.

Lemma read_functions_change_nothing_witness :
  db (snd (get_all_categories (failing_statement with_hammer)))
    = db (failing_statement with_hammer) /\
  txn (snd (get_all_categories (failing_statement with_hammer))) = None.
Proof.
  refine (proj1 (read_functions_change_nothing
                   (mkNumerics (fun _ => ten) (fun x _ => x) (fun x _ => x)
                               (fun _ => ten) (fun x _ => x))
                   (failing_statement with_hammer) _)).
  reflexivity.
Defined.

(** ** The schema *)

(** X3 -- [init_db] is atomic and can be run again: called when no
    transaction is open it either returns, and then the tables exist and
    every row and counter is as before (on a store that already has its
    tables nothing changes at all), or it raises the store's error, and then
    the database is exactly as before; it leaves no transaction open. *)
Theorem init_db_atomic (w : World) :
  txn w = None ->
  txn (snd (init_db w)) = None /\
  (fst (init_db w) = Return tt ->
   db (snd (init_db w)) = create_tables (db w) /\
   (has_tables (db w) = true -> db (snd (init_db w)) = db w)) /\
  (forall e, fst (init_db w) = Raise e ->
             e = OperationalError /\ db (snd (init_db w)) = db w).
Proof.
  destruct w as [[ht cs ps sq] t oc nc fs]. simpl. intros ->.
  destruct fs as [|b1 fs];
    [| destruct b1;
       [| destruct fs as [|b2 fs]; [| destruct b2; split_faults fs 6%nat]]];
    lazy -[Nat.eqb]; rewrite ?Nat.eqb_refl; lazy -[Nat.eqb];
    (split; [reflexivity|]);
    (split; [intros H; try discriminate H;
             (split; [reflexivity | intros E; subst; reflexivity])
            | intros e H; try discriminate H; inversion H; split; reflexivity]).
Qed.

Lemma init_db_atomic_witness :
  txn (snd (init_db (set_faults with_hammer [false; false; false; false; true]))) = None /\
  (fst (init_db (set_faults with_hammer [false; false; false; false; true])) = Return tt ->
   db (snd (init_db (set_faults with_hammer [false; false; false; false; true])))
     = create_tables (db (set_faults with_hammer [false; false; false; false; true])) /\
   (has_tables (db (set_faults with_hammer [false; false; false; false; true])) = true ->
    db (snd (init_db (set_faults with_hammer [false; false; false; false; true])))
      = db (set_faults with_hammer [false; false; false; false; true]))) /\
  (forall e,
      fst (init_db (set_faults with_hammer [false; false; false; false; true])) = Raise e ->
      e = OperationalError /\
      db (snd (init_db (set_faults with_hammer [false; false; false; false; true])))
        = db (set_faults with_hammer [false; false; false; false; true])).
Proof.
  apply (init_db_atomic (set_faults with_hammer [false; false; false; false; true])).
  reflexivity.
Defined.

(** ** The keys stay unique *)

Lemma NoDup_map_filter {A B} (g : A -> B) (f : A -> bool) (l : list A) :
  NoDup (map g l) -> NoDup (map g (filter f l)).
Proof.
  induction l as [|x l IH]; simpl; [auto|].
  intros H. inversion H as [|? ? Hn Hd]; subst.
  destruct (f x); simpl; [|auto].
  constructor; [|auto]. intros Hin. apply Hn.
  apply in_map_iff in Hin. destruct Hin as (y & E & Hy).
  apply filter_In in Hy. rewrite <- E. apply in_map. tauto.
Qed.

Lemma NoDup_snoc {A} (l : list A) (x : A) : NoDup l -> ~ In x l -> NoDup (l ++ [x]).
Proof.
  intros Hd Hn. apply Permutation_NoDup with (l := x :: l).
  - apply Permutation_cons_append.
  - constructor; assumption.
Qed.

Lemma next_rowid_fresh table ids s : ~ In (next_rowid table ids s) ids.
Proof. intros H. apply (next_rowid_above_ids table ids s) in H. lia. Qed.

Lemma db_add_category_keys name d :
  name_taken name d = false -> keys_unique d -> keys_unique (db_add_category name d).
Proof.
  intros Ht (Hc & Hp & Hn). unfold keys_unique, db_add_category, category_ids, product_ids.
  simpl. rewrite !map_app. simpl. repeat split.
  - apply NoDup_snoc; [exact Hc | apply next_rowid_fresh].
  - exact Hp.
  - apply NoDup_snoc; [exact Hn|]. intros Hin.
    apply name_taken_In in Hin. congruence.
Qed.

Lemma db_delete_category_keys cid d :
  keys_unique d -> keys_unique (db_delete_category cid d).
Proof.
  intros (Hc & Hp & Hn). unfold keys_unique, db_delete_category, category_ids, product_ids.
  simpl. repeat split; [apply NoDup_map_filter; exact Hc | exact Hp
                       | apply NoDup_map_filter; exact Hn].
Qed.

Lemma db_add_product_keys name price stock cid d :
  keys_unique d -> keys_unique (db_add_product name price stock cid d).
Proof.
  intros (Hc & Hp & Hn). unfold keys_unique, db_add_product, category_ids, product_ids.
  simpl. rewrite map_app. simpl. repeat split; [exact Hc| |exact Hn].
  apply NoDup_snoc; [exact Hp | apply next_rowid_fresh].
Qed.

Lemma db_update_product_ids pid name price stock cid d :
  product_ids (db_update_product pid name price stock cid d) = product_ids d.
Proof.
  unfold product_ids, db_update_product. simpl. rewrite map_map.
  apply map_ext. intros p. destruct (p_product_id p =? pid); reflexivity.
Qed.

Lemma db_update_product_keys pid name price stock cid d :
  keys_unique d -> keys_unique (db_update_product pid name price stock cid d).
Proof.
  intros (Hc & Hp & Hn). unfold keys_unique. rewrite db_update_product_ids.
  repeat split; assumption.
Qed.

Lemma db_delete_product_keys pid d :
  keys_unique d -> keys_unique (db_delete_product pid d).
Proof.
  intros (Hc & Hp & Hn). unfold keys_unique, db_delete_product, category_ids, product_ids.
  simpl. repeat split; [exact Hc | apply NoDup_map_filter; exact Hp | exact Hn].
Qed.

Lemma well_formed_initialised : well_formed (db initialised).
Proof.
  split; [apply ids_in_range_initialised|]. repeat split; constructor.
Qed.

(** X4 -- every function that writes keeps the store well formed: on a
    store where the rowids of each table are positive, distinct and at most
    the table's counter in [sqlite_sequence], and the category names are
    distinct, this is still so after [add_category], [delete_category],
    [add_product], [update_product] and [delete_product], whatever their
    arguments and result. *)
Theorem writers_keep_well_formed (w : World) :
  ready w ->
  well_formed (db w) ->
  (forall name, well_formed (db (snd (add_category name w)))) /\
  (forall cid, well_formed (db (snd (delete_category cid w)))) /\
  (forall name price stock cid,
      well_formed (db (snd (add_product name price stock cid w)))) /\
  (forall pid name price stock cid,
      well_formed (db (snd (update_product pid name price stock cid w)))) /\
  (forall pid, well_formed (db (snd (delete_product pid w)))).
Proof.
  intros Hr [Hi Hk].
  destruct (mutators_keep_ids_in_range w Hr Hi) as (H1 & H2 & H3 & H4 & H5).
  split; [|split; [|split; [|split]]]; intros.
  - split; [apply H1|]. rewrite (add_category_ready _ _ Hr).
    destruct (name_taken name (db w)) eqn:E; simpl;
      [exact Hk | apply db_add_category_keys; assumption].
  - split; [apply H2|]. rewrite (delete_category_ready _ _ Hr).
    destruct (count_products_in_category cid (db w) >? 0); simpl;
      [exact Hk | apply db_delete_category_keys; assumption].
  - split; [apply H3|]. rewrite (add_product_ready _ _ _ _ _ Hr).
    destruct (binds_null price); simpl;
      [exact Hk | apply db_add_product_keys; assumption].
  - split; [apply H4|]. rewrite (update_product_ready _ _ _ _ _ _ Hr).
    destruct (_ && _); simpl; [exact Hk | apply db_update_product_keys; assumption].
  - split; [apply H5|]. rewrite (delete_product_ready _ _ Hr). simpl.
    apply db_delete_product_keys; assumption.
Qed.

Lemma writers_keep_well_formed_witness :
  well_formed (db (snd (add_product "Saw" twenty 3 1 with_hammer))).
Proof.
  refine (proj1 (proj2 (proj2 (writers_keep_well_formed with_hammer _ _)))
                "Saw" twenty 3 1).
  - split; [|split]; reflexivity.
  - split; [split|split; [|split]].
    + intros i H. vm_compute in H. destruct H as [<-|[]]. vm_compute. split; discriminate.
    + intros i H. vm_compute in H. destruct H as [<-|[]]. vm_compute. split; discriminate.
    + vm_compute. repeat constructor. intros [].
    + vm_compute. repeat constructor. intros [].
    + vm_compute. repeat constructor. intros [].
Defined.

(** ** No product loses its category *)

Lemma count_zero_no_reference cid d :
  (count_products_in_category cid d >? 0) = false ->
  forall p, In p (Products d) -> p_category_id p <> cid.
Proof.
  unfold count_products_in_category. intros H p Hp E.
  assert (Hin : In p (filter (fun q => p_category_id q =? cid) (Products d))).
  { apply filter_In. split; [exact Hp|]. apply Z.eqb_eq. exact E. }
  destruct (filter _ (Products d)); [destruct Hin|]. simpl in H.
  unfold Z.gtb in H. simpl in H. discriminate.
Qed.

Lemma category_exists_after_delete cid' cid d :
  cid' <> cid -> category_exists cid' d = true ->
  category_exists cid' (db_delete_category cid d) = true.
Proof.
  unfold category_exists, db_delete_category. simpl. intros Hne H.
  apply existsb_exists in H. destruct H as (c & Hc & E). apply existsb_exists.
  exists c. split; [|exact E]. apply filter_In. split; [exact Hc|].
  apply Z.eqb_eq in E. apply negb_true_iff. apply Z.eqb_neq. congruence.
Qed.

Lemma category_exists_after_add cid' name d :
  category_exists cid' d = true ->
  category_exists cid' (db_add_category name d) = true.
Proof.
  unfold category_exists, db_add_category. simpl. intros H.
  rewrite existsb_app, H. reflexivity.
Qed.

(** X5 -- the guard of [delete_category] protects the references: on a
    store where every product's category exists, this is still so after
    [delete_category] (whatever the id), after [add_category] and
    [delete_product], and after [add_product] and [update_product] when the
    [category_id] they are given is the id of a category. *)
Theorem references_are_kept (w : World) :
  ready w ->
  no_orphans (db w) ->
  (forall cid, no_orphans (db (snd (delete_category cid w)))) /\
  (forall name, no_orphans (db (snd (add_category name w)))) /\
  (forall pid, no_orphans (db (snd (delete_product pid w)))) /\
  (forall name price stock cid,
      category_exists cid (db w) = true ->
      no_orphans (db (snd (add_product name price stock cid w)))) /\
  (forall pid name price stock cid,
      category_exists cid (db w) = true ->
      no_orphans (db (snd (update_product pid name price stock cid w)))).
Proof.
  intros Hr Hno. split; [|split; [|split; [|split]]].
  - intros cid. rewrite (delete_category_ready _ _ Hr).
    destruct (count_products_in_category cid (db w) >? 0) eqn:E; simpl; [exact Hno|].
    intros p Hp. apply category_exists_after_delete.
    + apply (count_zero_no_reference cid (db w) E p Hp).
    + apply Hno. exact Hp.
  - intros name. rewrite (add_category_ready _ _ Hr).
    destruct (name_taken name (db w)); simpl; [exact Hno|].
    intros p Hp. apply category_exists_after_add. apply Hno. exact Hp.
  - intros pid. rewrite (delete_product_ready _ _ Hr). simpl.
    intros p Hp. simpl in Hp. apply filter_In in Hp.
    apply (Hno p (proj1 Hp)).
  - intros name price stock cid Hc. rewrite (add_product_ready _ _ _ _ _ Hr).
    destruct (binds_null price); simpl; [exact Hno|].
    intros p Hp. simpl in Hp. apply in_app_or in Hp.
    destruct Hp as [Hp|[<-|[]]]; [apply (Hno p Hp) | exact Hc].
  - intros pid name price stock cid Hc. rewrite (update_product_ready _ _ _ _ _ _ Hr).
    destruct (_ && _); simpl; [exact Hno|].
    intros p Hp. simpl in Hp. apply in_map_iff in Hp. destruct Hp as (q & E & Hq).
    destruct (p_product_id q =? pid); subst p; [exact Hc | apply (Hno q Hq)].
Qed.

Lemma references_are_kept_witness :
  no_orphans (db (snd (delete_category 1 with_hammer))).
Proof.
  refine (proj1 (references_are_kept with_hammer _ _) 1).
  - split; [|split]; reflexivity.
  - intros p H. vm_compute in H. destruct H as [<-|[]]. reflexivity.
Defined.

(** ** Round trips *)

Lemma filter_id_none pid (ps : list Product) :
  ~ In pid (map p_product_id ps) ->
  filter (fun p => p_product_id p =? pid) ps = [].
Proof.
  induction ps as [|p ps IH]; simpl; [reflexivity|]. intros H.
  destruct (p_product_id p =? pid) eqn:E.
  - apply Z.eqb_eq in E. exfalso. apply H. left. exact E.
  - apply IH. intros Hin. apply H. right. exact Hin.
Qed.



Lemma filter_filter_other pid q (ps : list Product) :
  q <> pid ->
  filter (fun p => p_product_id p =? q)
         (filter (fun p => negb (p_product_id p =? pid)) ps)
  = filter (fun p => p_product_id p =? q) ps.
Proof.
  intros Hne. induction ps as [|p ps IH]; simpl; [reflexivity|].
  destruct (p_product_id p =? pid) eqn:E; simpl.
  - apply Z.eqb_eq in E. destruct (p_product_id p =? q) eqn:E'; [|exact IH].
    apply Z.eqb_eq in E'. congruence.
  - rewrite IH. reflexivity.
Qed.

Lemma filter_filter_same pid (ps : list Product) :
  filter (fun p => p_product_id p =? pid)
         (filter (fun p => negb (p_product_id p =? pid)) ps) = [].
Proof.
  induction ps as [|p ps IH]; simpl; [reflexivity|].
  destruct (p_product_id p =? pid) eqn:E; simpl; [exact IH|].
  rewrite E. exact IH.
Qed.



(** ** The listing of the categories *)

Lemma insert_ordered_snoc {A} (le : A -> A -> bool) (y x : A) (l : list A) :
  le y x = true ->
  insert_ordered le y (l ++ [x]) = (insert_ordered le y l ++ [x])%list.
Proof.
  intros H. induction l as [|z l IH]; simpl.
  - rewrite H. reflexivity.
  - destruct (le y z); [reflexivity|]. rewrite IH. reflexivity.
Qed.

Lemma order_by_snoc {A} (le : A -> A -> bool) (x : A) (l : list A) :
  (forall y, In y l -> le y x = true) ->
  order_by le (l ++ [x]) = (order_by le l ++ [x])%list.
Proof.
  induction l as [|y l IH]; simpl; intros H; [reflexivity|].
  rewrite IH by (intros z Hz; apply H; right; exact Hz).
  apply insert_ordered_snoc. apply H. left. reflexivity.
Qed.

Lemma Sorted_map {A B} (R : A -> A -> Prop) (S : B -> B -> Prop) (f : A -> B) l :
  (forall a b, R a b -> S (f a) (f b)) -> Sorted R l -> Sorted S (map f l).
Proof.
  intros H. induction 1 as [|a l Hs IH Hhd]; simpl; constructor; [exact IH|].
  destruct Hhd; simpl; constructor. apply H. assumption.
Qed.

(** X8 -- [get_all_categories] lists every category once, in ascending
    order of the id, and changes nothing. *)
Theorem get_all_categories_sorted (w : World) :
  ready w ->
  exists rows,
    get_all_categories w = (Return rows, settled w (db w)) /\
    Sorted (fun a b => fst a <= fst b) rows /\
    Permutation rows (map (fun c => (c_category_id c, c_name c)) (Categories (db w))).
Proof.
  intros Hr. rewrite (get_all_categories_ready _ Hr). eexists.
  split; [reflexivity|]. unfold select_categories. split.
  - apply (Sorted_map (fun a b => (c_category_id a <=? c_category_id b) = true)).
    + intros a b H. apply Z.leb_le. exact H.
    + apply (order_by_sorted (fun a b => c_category_id a <=? c_category_id b)).
      intros a b. destruct (Z.leb_spec (c_category_id a) (c_category_id b)) as [H|H];
        [left; reflexivity | right; apply Z.leb_le; lia].
  - apply Permutation_map. apply order_by_perm.
Qed.

Lemma get_all_categories_sorted_witness :
  exists rows,
    get_all_categories with_hammer = (Return rows, settled with_hammer (db with_hammer)) /\
    Sorted (fun a b => fst a <= fst b) rows /\
    Permutation rows (map (fun c => (c_category_id c, c_name c))
                          (Categories (db with_hammer))).
Proof.
  apply (get_all_categories_sorted with_hammer).
  split; [|split]; reflexivity.
Defined.

(** X9 -- a category that was added is listed, last: when the name is not
    taken, [add_category] returns [True] and the listing afterwards is the
    listing before followed by the new category, whose id is greater than
    every id in the table. *)
Theorem add_category_then_list (w : World) (name : string) :
  ready w ->
  name_taken name (db w) = false ->
  fst (add_category name w) = Return true /\
  exists rows,
    fst (get_all_categories w) = Return rows /\
    fst (get_all_categories (snd (add_category name w)))
    = Return (rows ++ [(next_rowid "Categories" (category_ids (db w))
                                   (sqlite_sequence (db w)), name)])%list /\
    forall row, In row rows ->
      fst row < next_rowid "Categories" (category_ids (db w)) (sqlite_sequence (db w)).
Proof.
  intros Hr Ht.
  assert (E : add_category name w
              = (Return true, settled w (db_add_category name (db w)))).
  { rewrite (add_category_ready _ _ Hr), Ht. reflexivity. }
  rewrite E. cbn [fst snd]. split; [reflexivity|].
  rewrite (get_all_categories_ready _ Hr).
  rewrite get_all_categories_ready by (apply ready_settled; reflexivity).
  cbn [fst]. rewrite db_settled. eexists. split; [reflexivity|]. split.
  - f_equal. unfold select_categories, db_add_category, category_ids.
    cbn [Categories]. rewrite order_by_snoc.
    + rewrite map_app. reflexivity.
    + intros c Hc. simpl. apply Z.leb_le.
      pose proof (next_rowid_above_ids "Categories"
                    (map c_category_id (Categories (db w)))
                    (sqlite_sequence (db w)) (c_category_id c)
                    (in_map c_category_id _ _ Hc)).
      lia.
  - intros row Hrow. apply in_map_iff in Hrow. destruct Hrow as (c & <- & Hc).
    simpl. unfold select_categories in Hc.
    apply (Permutation_in _ (order_by_perm _ _)) in Hc.
    apply next_rowid_above_ids. apply in_map. exact Hc.
Qed.

Lemma add_category_then_list_witness :
  fst (add_category "Toys" with_hammer) = Return true /\
  exists rows,
    fst (get_all_categories with_hammer) = Return rows /\
    fst (get_all_categories (snd (add_category "Toys" with_hammer)))
    = Return (rows ++ [(next_rowid "Categories" (category_ids (db with_hammer))
                                   (sqlite_sequence (db with_hammer)), "Toys")])%list /\
    forall row, In row rows ->
      fst row < next_rowid "Categories" (category_ids (db with_hammer))
                           (sqlite_sequence (db with_hammer)).
Proof.
  apply (add_category_then_list with_hammer "Toys").
  - split; [|split]; reflexivity.
  - reflexivity.
Defined.



(** ** The filters *)

Lemma execute_ext {A} conn (f g : Database -> outcome (A * Database)) w :
  (forall d, f d = g d) -> execute conn f w = execute conn g w.
Proof.
  intros H. unfold execute, bind.
  destruct (store_call w) as [[u|e] w']; [|reflexivity].
  destruct (has_tables (db w')); [|reflexivity]. rewrite H. reflexivity.
Qed.

Lemma select_products_ext f g d :
  (forall p, f p = g p) -> select_products f d = select_products g d.
Proof.
  intros H. unfold select_products, joined. rewrite (filter_ext f g H). reflexivity.
Qed.

Lemma select_report_ext N f g d :
  (forall p, f p = g p) -> select_report N f d = select_report N g d.
Proof.
  intros H. unfold select_report. rewrite (filter_ext f g H). reflexivity.
Qed.

Lemma get_products_by_category_where cid ids w :
  get_products_by_category cid ids w =
  (conn <- get_connection ;;
   products <- execute conn (query (select_products (where_clause cid ids))) ;;
   close conn ;;
   ret products) w.
Proof.
  unfold get_products_by_category, where_clause.
  destruct (truthy_list ids && _); [| destruct (truthy_int cid)]; reflexivity.
Qed.

(** Both filtered functions depend on their arguments through the rows
    the WHERE clause selects only. *)
Lemma filtered_functions_ext N cid ids cid' ids' w :
  (forall p, where_clause cid ids p = where_clause cid' ids' p) ->
  get_products_by_category cid ids w = get_products_by_category cid' ids' w /\
  get_category_report N cid ids w = get_category_report N cid' ids' w.
Proof.
  intros H. rewrite !get_products_by_category_where, !get_category_report_where.
  unfold bind. destruct (get_connection w) as [[conn|e] w1]; [|split; reflexivity].
  rewrite (execute_ext conn
             (query (select_products (where_clause cid ids)))
             (query (select_products (where_clause cid' ids'))) w1)
    by (intros d; unfold query; rewrite (select_products_ext _ _ d H); reflexivity).
  rewrite (execute_ext conn
             (query (select_report N (where_clause cid ids)))
             (query (select_report N (where_clause cid' ids'))) w1)
    by (intros d; unfold query; rewrite (select_report_ext N _ _ d H); reflexivity).
  split; reflexivity.
Qed.

Lemma category_in_spec ids p :
  category_in ids p = true <-> In (p_category_id p) ids.
Proof.
  unfold category_in. rewrite existsb_exists. split.
  - intros (i & Hi & E). apply Z.eqb_eq in E. subst. exact Hi.
  - intros H. exists (p_category_id p). split; [exact H | apply Z.eqb_refl].
Qed.

(** X11 -- a single id and the list of that id are the same filter: for
    an id other than 0, [get_products_by_category] and
    [get_category_report] do exactly the same with [category_id = cid] as
    with [category_ids = [cid]], in every world. *)
Theorem single_id_is_singleton_list (N : Numerics) (w : World) (cid : Z) :
  cid <> 0 ->
  get_products_by_category (Some cid) None w
    = get_products_by_category None (Some [cid]) w /\
  get_category_report N (Some cid) None w
    = get_category_report N None (Some [cid]) w.
Proof.
  intros Hne. apply filtered_functions_ext. intros p.
  unfold where_clause. simpl. apply Z.eqb_neq in Hne. rewrite Hne. simpl.
  unfold category_is, category_in. simpl. rewrite orb_false_r. reflexivity.
Qed.

Lemma single_id_is_singleton_list_witness :
  get_products_by_category (Some 1) None with_hammer
    = get_products_by_category None (Some [1]) with_hammer /\
  get_category_report (mkNumerics (fun _ => ten) (fun x _ => x) (fun x _ => x)
                                  (fun _ => ten) (fun x _ => x))
                      (Some 1) None with_hammer
    = get_category_report (mkNumerics (fun _ => ten) (fun x _ => x) (fun x _ => x)
                                      (fun _ => ten) (fun x _ => x))
                          None (Some [1]) with_hammer.
Proof.
  apply (single_id_is_singleton_list _ with_hammer 1). discriminate.
Defined.



(** ** The report and the listing *)

Lemma sum_stock_perm l l' : Permutation l l' -> sum_stock l = sum_stock l'.
Proof.
  unfold sum_stock. induction 1; simpl; lia.
Qed.

Lemma listed_stock_products rows : listed_stock rows = sum_stock (map product_of_row rows).
Proof.
  unfold listed_stock, sum_stock. rewrite map_map. reflexivity.
Qed.



(** ** Reading one product *)

Lemma hd_error_nil {A} (l : list A) : hd_error l = None <-> l = [].
Proof. destruct l; simpl; split; congruence. Qed.



(** ** Connections, again *)

Lemma releases_on_return_of_releases {A} (m : M A) :
  releases m -> releases_on_return m.
Proof. intros H w a w' E c Hc. apply (H w c). rewrite E. exact Hc. Qed.

Lemma with_connection_releases_on_return {A} (body : Connection -> M A) :
  (forall conn, closes_on_return (conn_id conn) (body conn)) ->
  releases_on_return (conn <- get_connection ;; body conn).
Proof.
  intros Hb w a w' E c Hc. unfold bind in E.
  pose proof (get_connection_conns w) as Hg.
  destruct (get_connection w) as [[conn|e] w1]; [|discriminate].
  destruct Hg as [Hid Hopen]. specialize (Hb conn w1). rewrite E in Hb.
  rewrite Hb, Hopen, Hid in Hc. apply without_In in Hc.
  destruct Hc as [[Hc|Hc] Hne]; [congruence | exact Hc].
Qed.

Lemma closes_on_return_reader {A B} conn (stmt : Database -> outcome (A * Database))
    (f : A -> B) :
  closes_on_return (conn_id conn) (r <- execute conn stmt ;; close conn ;; ret (f r)).
Proof.
  apply closes_on_return_bind; [apply keeps_execute|]. intros r.
  apply closes_on_return_close.
Qed.

Lemma init_db_releases_on_return : releases_on_return init_db.
Proof.
  intros [[ht cs ps sq] t oc nc fs] a w' E c Hc.
  assert (H : open_conns w' = without nc oc).
  { revert E. unfold without.
    destruct fs as [|b1 fs];
      [| destruct b1;
         [| destruct fs as [|b2 fs]; [| destruct b2; split_faults fs 6%nat]]];
      destruct t as [[owner snapshot]|];
      lazy -[Nat.eqb filter negb]; rewrite ?Nat.eqb_refl;
      lazy -[Nat.eqb filter negb];
      intros E; try discriminate E; inversion E; simpl;
      rewrite ?Nat.eqb_refl; reflexivity. }
  rewrite H in Hc. apply without_In in Hc. apply Hc.
Qed.

(** X15 -- every function of [db.py] that opens a connection has closed
    it when it returns: after a call that returns (a value, [True] or
    [False]), no connection is open that was not open before the call. *)
Theorem connection_closed_on_return (N : Numerics) :
  releases_on_return init_db /\
  releases_on_return get_all_categories /\
  (forall name, releases_on_return (add_category name)) /\
  (forall cid, releases_on_return (delete_category cid)) /\
  releases_on_return get_all_products /\
  (forall cid ids, releases_on_return (get_products_by_category cid ids)) /\
  (forall name price stock cid, releases_on_return (add_product name price stock cid)) /\
  (forall pid name price stock cid,
      releases_on_return (update_product pid name price stock cid)) /\
  (forall pid, releases_on_return (delete_product pid)) /\
  (forall pid, releases_on_return (get_product_by_id pid)) /\
  (forall cid ids, releases_on_return (get_category_report N cid ids)).
Proof.
  split; [apply init_db_releases_on_return|].
  split.
  { apply (with_connection_releases_on_return
             (fun conn => r <- execute conn (query select_categories) ;;
                          close conn ;;
                          ret (map (fun row => (c_category_id row, c_name row)) r))).
    intros conn. apply closes_on_return_reader. }
  split.
  { intros name w b w' E. apply (add_category_closes_on_return name w b w' E). }
  split.
  { intros cid. apply releases_on_return_of_releases, delete_category_releases. }
  split.
  { apply (with_connection_releases_on_return
             (fun conn => r <- execute conn (query (select_products no_filter)) ;;
                          close conn ;; ret r)).
    intros conn. apply (closes_on_return_reader conn _ (fun r => r)). }
  split.
  { intros cid ids w a w' E. rewrite get_products_by_category_where in E.
    revert w a w' E.
    apply (with_connection_releases_on_return
             (fun conn =>
                r <- execute conn (query (select_products (where_clause cid ids))) ;;
                close conn ;; ret r)).
    intros conn. apply (closes_on_return_reader conn _ (fun r => r)). }
  split.
  { intros. apply releases_on_return_of_releases, add_product_releases. }
  split.
  { intros. apply releases_on_return_of_releases, update_product_releases. }
  split.
  { intros. apply releases_on_return_of_releases, delete_product_releases. }
  split.
  { intros pid.
    apply (with_connection_releases_on_return
             (fun conn => r <- execute conn (query (select_product_by_id pid)) ;;
                          close conn ;; ret r)).
    intros conn. apply (closes_on_return_reader conn _ (fun r => r)). }
  intros cid ids w a w' E. rewrite get_category_report_where in E.
  revert w a w' E.
  apply (with_connection_releases_on_return
           (fun conn =>
              r <- execute conn (query (select_report N (where_clause cid ids))) ;;
              close conn ;;
              ret (mkReport
                     (match fst (fst r) with
                      | Some x => py_round N x 2 | None => S754_zero false end)
                     (match snd (fst r) with Some n => n | None => 0 end)
                     (match snd r with Some x => x | None => S754_zero false end)))).
  intros conn. apply closes_on_return_reader.
Qed.

Lemma connection_closed_on_return_witness :
  open_conns (snd (get_all_categories with_hammer)) = [].
Proof.
  destruct (open_conns (snd (get_all_categories with_hammer))) as [|c l] eqn:E;
    [reflexivity|].
  exfalso.
  refine (proj1 (proj2 (connection_closed_on_return
                          (mkNumerics (fun _ => ten) (fun x _ => x) (fun x _ => x)
                                      (fun _ => ten) (fun x _ => x))))
                with_hammer _ _ eq_refl c _).
  change (In c (open_conns (snd (get_all_categories with_hammer)))).
  rewrite E. left. reflexivity.
Defined.

(** X16 -- [get_connection] fails only if the connection cannot be
    opened: when [sqlite3.connect] fails its error is raised and nothing is
    opened; otherwise a connection is returned, with foreign keys not
    enforced, even if the PRAGMA for the journal mode fails.  The database
    and the transaction state are untouched either way. *)
Theorem get_connection_outcome (w : World) :
  (forall fs, faults w = true :: fs ->
     fst (get_connection w) = Raise OperationalError /\
     open_conns (snd (get_connection w)) = open_conns w) /\
  ((forall fs, faults w <> true :: fs) ->
     fst (get_connection w) = Return (mkConnection (next_conn w) false) /\
     open_conns (snd (get_connection w)) = next_conn w :: open_conns w) /\
  db (snd (get_connection w)) = db w /\
  txn (snd (get_connection w)) = txn w.
Proof.
  destruct w as [d t oc nc fs]. unfold get_connection. unfold_py. cbn.
  split; [|split; [|split]].
  - intros fs' ->. cbn. split; reflexivity.
  - intros H. destruct fs as [|[] [|[] fs]]; cbn; try (split; reflexivity).
    + exfalso. apply (H [] eq_refl).
    + exfalso. apply (H _ eq_refl).
    + exfalso. apply (H _ eq_refl).
  - destruct fs as [|[] [|[] fs]]; reflexivity.
  - destruct fs as [|[] [|[] fs]]; reflexivity.
Qed.

Lemma get_connection_outcome_witness :
  fst (get_connection (set_faults with_hammer [false; true]))
    = Return (mkConnection (next_conn (set_faults with_hammer [false; true])) false) /\
  open_conns (snd (get_connection (set_faults with_hammer [false; true])))
    = next_conn (set_faults with_hammer [false; true])
      :: open_conns (set_faults with_hammer [false; true]).
Proof.
  refine (proj1 (proj2 (get_connection_outcome (set_faults with_hammer [false; true]))) _).
  intros fs H. discriminate H.
Defined.

(** ** The Reports page *)

Lemma dict_get_fold_other (L : list (Z * string)) d k :
  ~ In k (map snd L) ->
  dict_get k (fold_left (fun d row => dict_set (snd row) (fst row) d) L d) = dict_get k d.
Proof.
  revert d. induction L as [|[v k'] L IH]; simpl; intros d H; [reflexivity|].
  rewrite IH by (intros Hin; apply H; right; exact Hin).
  unfold dict_get, dict_set. apply seq_of_set_seq_other.
  intros E. apply H. left. symmetry. exact E.
Qed.

Lemma dict_get_fold_same (L : list (Z * string)) d k v :
  NoDup (map snd L) -> In (v, k) L ->
  dict_get k (fold_left (fun d row => dict_set (snd row) (fst row) d) L d) = Some v.
Proof.
  revert d. induction L as [|[v' k'] L IH]; simpl; intros d Hnd Hin; [destruct Hin|].
  inversion Hnd as [|? ? Hnotin Hnd']; subst.
  destruct Hin as [E|Hin].
  - inversion E; subst. rewrite dict_get_fold_other by exact Hnotin.
    unfold dict_get, dict_set. apply seq_of_set_seq_same.
  - apply IH; assumption.
Qed.

(** The dictionary of the page gives every listed category its id. *)
Lemma category_dict_get (categories : list (Z * string)) v k :
  NoDup (map snd categories) -> In (v, k) categories ->
  dict_get k (category_dict categories) = Some v.
Proof. apply dict_get_fold_same. Qed.

Lemma lookup_all_spec d names :
  (forall n, In n names -> exists v, dict_get n d = Some v) ->
  exists ids,
    lookup_all d names = Some ids /\
    (names <> [] -> ids <> []) /\
    forall i, In i ids <-> exists n, In n names /\ dict_get n d = Some i.
Proof.
  induction names as [|n names IH]; intros H.
  - exists []. split; [reflexivity|]. split; [congruence|].
    intros i. split; [intros [] | intros (n & [] & _)].
  - destruct (H n (or_introl eq_refl)) as (v & Hv).
    destruct IH as (ids & Hids & _ & Hspec).
    { intros m Hm. apply H. right. exact Hm. }
    exists (v :: ids). simpl. rewrite Hv, Hids. split; [reflexivity|].
    split; [discriminate|]. intros i. split.
    + intros [<-|Hi].
      * exists n. split; [left; reflexivity | exact Hv].
      * apply Hspec in Hi. destruct Hi as (m & Hm & Em). exists m. split; [right|]; auto.
    + intros (m & [<-|Hm] & Em).
      * left. congruence.
      * right. apply Hspec. exists m. auto.
Qed.

Lemma joined_In f d r :
  In r (joined f d) <->
  exists p c, In p (Products d) /\ f p = true /\
              In c (Categories d) /\ c_category_id c = p_category_id p /\
              r = row_of p c.
Proof.
  split; [apply joined_category_name|].
  intros (p & c & Hp & Hf & Hc & Hid & ->). unfold joined. apply in_flat_map.
  exists p. split; [apply filter_In; auto|].
  unfold join_category. apply in_map_iff. exists c. split; [reflexivity|].
  apply filter_In. split; [exact Hc | apply Z.eqb_eq; congruence].
Qed.

Lemma listed_stock_select_products f d :
  NoDup (category_ids d) -> no_orphans d ->
  listed_stock (select_products f d) = sum_stock (filter f (Products d)).
Proof.
  intros Hnd Hno. rewrite listed_stock_products. apply sum_stock_perm.
  unfold select_products. rewrite <- (joined_products _ _ Hnd Hno).
  apply Permutation_map. apply order_by_perm.
Qed.

Lemma NoDup_map_inj {A B} (g : A -> B) (l : list A) a b :
  NoDup (map g l) -> In a l -> In b l -> g a = g b -> a = b.
Proof.
  induction l as [|x l IH]; simpl; [intros _ []|].
  intros Hnd Ha Hb E. inversion Hnd as [|? ? Hn Hd]; subst.
  destruct Ha as [->|Ha], Hb as [->|Hb]; auto.
  - exfalso. apply Hn. rewrite E. apply in_map. exact Hb.
  - exfalso. apply Hn. rewrite <- E. apply in_map. exact Ha.
Qed.

Lemma report_of_total_stock N f d :
  total_stock (report_of N f d) = sum_stock (filter f (Products d)).
Proof.
  unfold report_of, select_report.
  destruct (filter f (Products d)) as [|p ps]; reflexivity.
Qed.

Lemma report_then_listing N w arg :
  ready w ->
  (report <- get_category_report N None arg ;;
   products <- get_products_by_category None arg ;;
   ret (Rendered (report, products))) w
  = (Return (Rendered (report_of N (where_clause None arg) (db w),
                       select_products (where_clause None arg) (db w))),
     settled (settled w (db w)) (db w)).
Proof.
  intros Hr. unfold bind at 1. rewrite (get_category_report_ready _ _ _ _ Hr).
  unfold bind. rewrite get_products_by_category_ready
    by (apply ready_settled; apply Hr).
  reflexivity.
Qed.

Lemma where_clause_none p : where_clause None None p = true.
Proof. reflexivity. Qed.

Lemma where_clause_ids i ids p :
  where_clause None (Some (i :: ids)) p = category_in (i :: ids) p.
Proof. reflexivity. Qed.


